(** * CryptoAnalyst AI backend: the analysis / payment orchestration core

    A shallow embedding of the TypeScript services and controllers
    (paymentService, walletService, analysisController, the payment and
    analysis routes and the pricing table of utils/config) together with the
    properties of the orchestration workflow.

    Conventions of the embedding:
    - the Prisma tables keyed by a primary key are finite maps from the id to
      the row; the PaymentDistribution table, whose rows are only ever
      addressed through [createMany] / [updateMany], is a list in insertion
      order;
    - an [async] method is a computation in a state-and-exception monad over
      the database, the service fields and an audit log of the side effects
      performed so far; a JavaScript [throw] keeps every mutation that
      happened before it (no transaction is opened anywhere in the source);
    - the database itself is reliable: a Prisma call throws only for a
      missing record or a query its validation rejects;
    - [new Date()] is the time [now] at which the request is served;
    - a JavaScript [number] is a rational; every arithmetic operation is
      followed by the rounding [js_round] of the environment, which stands
      for IEEE-754 round-to-nearest on binary64;
    - the external services (custodial wallet, payment gateway, market data,
      text generation) are oracles of the environment: their answer may
      depend on everything that happened before (the audit log). *)

From Stdlib Require Import QArith Qabs Lqa.
From stdpp Require Import base option list gmap strings fin_maps.

Local Open Scope string_scope.

(** ** JavaScript values as they reach the services *)

(** A field read out of an untyped request body. [JSet v] is the object
    [{ set: v }] with [v] a string or null, the long form of a column update
    that Prisma accepts in the [data] of an update where it accepts the
    value itself. [JOther] stands for every other value (numbers, booleans,
    arrays, other objects): the services never look inside them. *)
Inductive JsVal :=
| JUndefined
| JNull
| JString (s : string)
| JSet (v : option string)
| JOther.

#[global] Instance JsVal_eq_dec : EqDecision JsVal.
Proof. solve_decision. Defined.

(** What a thrown value can be. *)
Inductive Exn :=
| Error (message : string)
| PrismaRecordNotFound
| PrismaValidationError
| GatewayError
| TransferError
| DataError (message : string).

#[global] Instance Exn_eq_dec : EqDecision Exn.
Proof. solve_decision. Defined.

(** ** Data model (the Prisma rows the code reads and writes) *)

Inductive PaymentStatus := PENDING | COMPLETED | FAILED.

#[global] Instance PaymentStatus_eq_dec : EqDecision PaymentStatus.
Proof. solve_decision. Defined.

Inductive AnalysisStatus :=
| A_PENDING_PAYMENT
| A_PROCESSING
| A_COMPLETED
| A_FAILED.

#[global] Instance AnalysisStatus_eq_dec : EqDecision AnalysisStatus.
Proof. solve_decision. Defined.

(** The status column of a distribution row: the strings ['pending'],
    ['completed'] and ['failed'] of walletService. *)
Inductive DistributionStatus := pending | completed | failed.

#[global] Instance DistributionStatus_eq_dec : EqDecision DistributionStatus.
Proof. solve_decision. Defined.

Record Payment := mkPayment {
  pay_userId : string;
  pay_amount : Q;
  pay_currency : string;
  pay_status : PaymentStatus;
  pay_x402PaymentId : option string;
  pay_transactionHash : option string;
  pay_completedAt : option Z
}.

(** The [result] JSON of an analysis. The market data blobs and the generated
    texts are opaque strings. *)
Record AnalysisResult := mkAnalysisResult {
  fullAnalysis : string;
  executiveSummary : string;
  res_cryptoData : string;
  res_marketData : string;
  res_fearGreedIndex : Z;
  generatedAt : Z
}.

(** Of the request [parameters] only [symbol] is read by the controllers; the
    other fields travel to the text generator untouched. *)
Record Analysis := mkAnalysis {
  an_userId : string;
  an_type : string;
  an_symbol : option string;
  an_status : AnalysisStatus;
  an_price : Q;
  an_paymentId : option string;
  an_result : option AnalysisResult;
  an_completedAt : option Z
}.

Record Stakeholder := mkStakeholder {
  walletId : string;
  percentage : Q;
  sh_type : string;
  isActive : bool
}.

Record PaymentDistribution := mkDistribution {
  pd_paymentId : string;
  recipient : string;
  pd_amount : Q;
  pd_type : string;
  pd_status : DistributionStatus;
  txHash : option string
}.

(** ** Audit log of side effects *)

Inductive Event :=
| EvPaymentCreate (id : string)
| EvPaymentUpdate (id : string)
| EvAnalysisCreate (id : string)
| EvAnalysisUpdate (id : string) (st : option AnalysisStatus)
| EvDistributionCreateMany (rows : list PaymentDistribution)
| EvDistributionUpdateMany (paymentId rcpt type : string)
    (st : DistributionStatus)
| EvTransfer (amount : Q) (destination : string) (outcome : option string)
| EvX402Post (reference : string) (cents : Q) (outcome : option string)
| EvGetCryptoData (symbol : string)
| EvGetMarketData
| EvGetFearGreedIndex
| EvGenerateAnalysis (type : string)
| EvGenerateExecutiveSummary.

(** ** The state the services run against *)

Record State := mkState {
  payments : gmap string Payment;
  analyses : gmap string Analysis;
  distributions : list PaymentDistribution;
  stakeholders : list Stakeholder;
  (** [this.platformWallet] of the WalletService instance in use: [None] is
      the [null] it is constructed with. *)
  platformWallet : option string;
  (** side effects so far, oldest first *)
  log : list Event
}.

(** ** The environment: every answer the code gets from outside *)

Record Env := mkEnv {
  (** rounding of an exact result to a JavaScript [number] *)
  js_round : Q → Q;
  (** [platformWallet.createTransfer(...)] followed by [transfer.wait()]:
      the transaction hash, or [None] when either call throws *)
  createTransfer : list Event → Q → string → option string;
  (** [axios.post] to the x402 endpoint: the gateway's payment id *)
  x402_post : list Event → string → Q → option string;
  (** market data and text generation; [None] is a thrown error *)
  fetchCryptoData : list Event → string → option string;
  fetchMarketData : list Event → option string;
  fetchFearGreed : list Event → option Z;
  bedrockAnalysis : list Event → string → option string;
  bedrockSummary : list Event → string → option string;
  (** the [type] column of the Analysis model, declared in the Prisma
      schema and not in the TypeScript sources: the strings it accepts *)
  schema_accepts_type : string → bool;
  (** when the two requests of a [Promise.all] both fail: whether the one
      for the cryptocurrency data is the first to reject *)
  cryptoDataRejectsFirst : list Event → bool
}.

(** ** State and exception monad *)

Inductive Res (A : Type) :=
| Ok (a : A)
| Throw (e : Exn).
Arguments Ok {A} a.
Arguments Throw {A} e.

Definition M (A : Type) : Type := State → Res A * State.

#[global] Instance M_ret : MRet M := λ A a s, (Ok a, s).
#[global] Instance M_bind : MBind M := λ A B f m s,
  match m s with
  | (Ok a, s') => f a s'
  | (Throw e, s') => (Throw e, s')
  end.

Definition throw {A} (e : Exn) : M A := λ s, (Throw e, s).
Definition get : M State := λ s, (Ok s, s).
Definition modify (f : State → State) : M unit := λ s, (Ok tt, f s).

(** [try { body } catch (error) { handler error }] *)
Definition try_catch {A} (body : M A) (handler : Exn → M A) : M A := λ s,
  match body s with
  | (Ok a, s') => (Ok a, s')
  | (Throw e, s') => handler e s'
  end.

Definition emit (e : Event) : M unit :=
  modify (λ s, mkState (payments s) (analyses s) (distributions s)
                 (stakeholders s) (platformWallet s) (log s ++ [e])%list).

Definition result_of {A} (r : Res A * State) : Res A := fst r.
Definition state_of {A} (r : Res A * State) : State := snd r.

(** Field updates of the state (the record has no mutable fields: each
    update rebuilds it). *)
Definition set_payments (f : gmap string Payment → gmap string Payment)
    (s : State) : State :=
  mkState (f (payments s)) (analyses s) (distributions s) (stakeholders s)
    (platformWallet s) (log s).

Definition set_analyses (f : gmap string Analysis → gmap string Analysis)
    (s : State) : State :=
  mkState (payments s) (f (analyses s)) (distributions s) (stakeholders s)
    (platformWallet s) (log s).

Definition set_distributions
    (f : list PaymentDistribution → list PaymentDistribution)
    (s : State) : State :=
  mkState (payments s) (analyses s) (f (distributions s)) (stakeholders s)
    (platformWallet s) (log s).

(** ** walletService.ts *)

Module WalletService.
Section WithEnv.
Context (E : Env).

(** JavaScript arithmetic on [number]s, and [Decimal.toNumber()]. *)
Definition js_mul (x y : Q) : Q := js_round E (x * y).
Definition js_div (x y : Q) : Q := js_round E (x / y).
Definition toNumber (d : Q) : Q := js_round E d.

(** The object pushed on [distributions] for one stakeholder:
    [amount = totalAmount * (stakeholder.percentage.toNumber() / 100)]. *)
Definition distribution_amount (totalAmount : Q) (sh : Stakeholder) : Q :=
  js_mul totalAmount (js_div (toNumber (percentage sh)) 100).

Definition new_distribution (paymentId : string) (totalAmount : Q)
    (sh : Stakeholder) : PaymentDistribution :=
  mkDistribution paymentId (walletId sh) (distribution_amount totalAmount sh)
    (sh_type sh) pending None.

(** [prisma.stakeholder.findMany({ where: { isActive: true } })] *)
Definition active_stakeholders (s : State) : list Stakeholder :=
  filter (λ sh, isActive sh = true) (stakeholders s).

(** [prisma.paymentDistribution.createMany({ data })] *)
Definition createMany (rows : list PaymentDistribution) : M unit :=
  modify (set_distributions (λ t, (t ++ rows)%list));;
  emit (EvDistributionCreateMany rows).

(** The [where] clause of both [updateMany] calls. *)
Definition row_matches (paymentId rcpt type : string)
    (r : PaymentDistribution) : bool :=
  bool_decide (pd_paymentId r = paymentId) &&
  bool_decide (recipient r = rcpt) &&
  bool_decide (pd_type r = type).

Definition mark_completed (h : string) (r : PaymentDistribution)
    : PaymentDistribution :=
  mkDistribution (pd_paymentId r) (recipient r) (pd_amount r) (pd_type r)
    completed (Some h).

Definition mark_failed (r : PaymentDistribution) : PaymentDistribution :=
  mkDistribution (pd_paymentId r) (recipient r) (pd_amount r) (pd_type r)
    failed (txHash r).

(** [prisma.paymentDistribution.updateMany({ where, data })] *)
Definition updateMany (paymentId rcpt type : string)
    (upd : PaymentDistribution → PaymentDistribution)
    (st : DistributionStatus) : M unit :=
  modify (set_distributions
            (map (λ r, if row_matches paymentId rcpt type r then upd r
                       else r)));;
  emit (EvDistributionUpdateMany paymentId rcpt type st).

(** [await this.platformWallet.createTransfer({...}); await transfer.wait()] *)
Definition transfer (d : PaymentDistribution) : M string :=
  s ← get;
  let outcome := createTransfer E (log s) (pd_amount d) (recipient d) in
  emit (EvTransfer (pd_amount d) (recipient d) outcome);;
  match outcome with
  | Some h => mret h
  | None => throw TransferError
  end.

(** The body of [for (const distribution of distributions)]. *)
Definition executeTransfer (paymentId : string) (d : PaymentDistribution)
    : M unit :=
  try_catch
    (h ← transfer d;
     updateMany paymentId (recipient d) (pd_type d) (mark_completed h)
       completed)
    (λ _, updateMany paymentId (recipient d) (pd_type d) mark_failed failed).

Fixpoint executeTransfers (paymentId : string)
    (ds : list PaymentDistribution) : M unit :=
  match ds with
  | [] => mret tt
  | d :: rest =>
      executeTransfer paymentId d;;
      executeTransfers paymentId rest
  end.

Definition distributePayment (paymentId : string) (totalAmount : Q)
    : M unit :=
  try_catch
    (s ← get;
     match platformWallet s with
     | None => throw (Error "Platform wallet not initialized")
     | Some _ =>
         match payments s !! paymentId with
         | None => throw (Error "Payment not found")
         | Some _ =>
             let distributions :=
               map (new_distribution paymentId totalAmount)
                   (active_stakeholders s) in
             createMany distributions;;
             executeTransfers paymentId distributions
         end
     end)
    (λ error, throw error).

End WithEnv.
End WalletService.

(** ** paymentService.ts *)

(** The JSON body of an x402 webhook notification, as destructured by
    [const { reference: paymentId, status, transaction_hash } = payload]. *)
Record WebhookPayload := mkPayload {
  reference : JsVal;
  status : JsVal;
  transaction_hash : JsVal
}.

(** What [findUnique] with [include: { distributions, analysis }] returns. *)
Record PaymentWithRelations := mkPaymentWithRelations {
  pwr_id : string;
  pwr_payment : Payment;
  pwr_distributions : list PaymentDistribution;
  pwr_analysis : option (string * Analysis)
}.

(** Primary keys are generated by the database: a key not yet in the table. *)
Definition new_id {V} (table : gmap string V) : string := fresh (dom table).

(** [prisma.analysis.findFirst({ where: { paymentId } })] *)
Definition analysis_of_payment (s : State) (paymentId : string)
    : option (string * Analysis) :=
  List.find (λ kv, bool_decide (an_paymentId (snd kv) = Some paymentId))
    (map_to_list (analyses s)).

Definition distributions_of_payment (s : State) (paymentId : string)
    : list PaymentDistribution :=
  filter (λ r, pd_paymentId r = paymentId) (distributions s).

Definition with_status (st : AnalysisStatus) (a : Analysis) : Analysis :=
  mkAnalysis (an_userId a) (an_type a) (an_symbol a) st (an_price a)
    (an_paymentId a) (an_result a) (an_completedAt a).

(** [prisma.analysis.update({ where: { id }, data: { status } })] *)
Definition analysis_update_status (id : string) (st : AnalysisStatus)
    : M unit :=
  s ← get;
  match analyses s !! id with
  | None => throw PrismaRecordNotFound
  | Some a =>
      modify (set_analyses <[id := with_status st a]>);;
      emit (EvAnalysisUpdate id (Some st))
  end.

(** [prisma.payment.update({ where: { id }, data })]. The [where] value comes
    straight from the request body: anything but a string is rejected by the
    client's validation, as is a [data] object with an ill-typed field
    ([data = None]); both throw before the table is touched. *)
Definition payment_update (where_id : JsVal) (data : option (Payment → Payment))
    : M (string * Payment) :=
  match where_id, data with
  | JString id, Some upd =>
      s ← get;
      match payments s !! id with
      | None => throw PrismaRecordNotFound
      | Some p =>
          modify (set_payments <[id := upd p]>);;
          emit (EvPaymentUpdate id);;
          mret (id, upd p)
      end
  | _, _ => throw PrismaValidationError
  end.

(** The [data] of the "completed" branch:
    [{ status: 'COMPLETED', transactionHash: transaction_hash,
       completedAt: new Date() }].
    An [undefined] field is left out of the update, [null] clears the
    column, [{ set: v }] writes [v]; any other value fails the validation
    of the query. *)
Definition completed_data (transaction_hash : JsVal) (now : Z)
    : option (Payment → Payment) :=
  let upd (h : option string → option string) (p : Payment) :=
    mkPayment (pay_userId p) (pay_amount p) (pay_currency p) COMPLETED
      (pay_x402PaymentId p) (h (pay_transactionHash p)) (Some now) in
  match transaction_hash with
  | JUndefined => Some (upd (λ old, old))
  | JNull => Some (upd (λ _, None))
  | JString h => Some (upd (λ _, Some h))
  | JSet v => Some (upd (λ _, v))
  | JOther => None
  end.

Definition failed_data (p : Payment) : Payment :=
  mkPayment (pay_userId p) (pay_amount p) (pay_currency p) FAILED
    (pay_x402PaymentId p) (pay_transactionHash p) (pay_completedAt p).

Definition set_x402PaymentId (x : string) (p : Payment) : Payment :=
  mkPayment (pay_userId p) (pay_amount p) (pay_currency p) (pay_status p)
    (Some x) (pay_transactionHash p) (pay_completedAt p).

Module PaymentService.
Section WithEnv.
Context (E : Env).

(** [createX402Payment]: the amount is sent in cents, [amount * 100]. *)
Definition createX402Payment (paymentId : string) (amount : Q) : M string :=
  try_catch
    (s ← get;
     let cents := WalletService.js_mul E amount 100 in
     let outcome := x402_post E (log s) paymentId cents in
     emit (EvX402Post paymentId cents outcome);;
     match outcome with
     | Some x => mret x
     | None => throw GatewayError
     end)
    (λ error, throw error).

Definition createPayment (userId analysisType : string) (amount : Q)
    : M string :=
  try_catch
    (s ← get;
     let id := new_id (payments s) in
     modify (set_payments
               <[id := mkPayment userId amount "USD" PENDING None None None]>);;
     emit (EvPaymentCreate id);;
     x ← createX402Payment id amount;
     payment_update (JString id) (Some (set_x402PaymentId x));;
     mret id)
    (λ error, throw error).

Definition processPaymentCompletion (paymentId : string) : M unit :=
  try_catch
    (s ← get;
     match analysis_of_payment s paymentId with
     | Some (id, _) => analysis_update_status id A_PROCESSING
     | None => mret tt
     end)
    (λ error, throw error).

(** [handlePaymentWebhook(payload, signature)]. The signature check of the
    source is commented out: [signature] is not read anywhere in the body. *)
Definition handlePaymentWebhook (now : Z) (payload : WebhookPayload)
    (signature : option string) : M unit :=
  try_catch
    (let paymentId := reference payload in
     if decide (status payload = JString "completed") then
       '(id, payment) ← payment_update paymentId
                          (completed_data (transaction_hash payload) now);
       processPaymentCompletion id;;
       WalletService.distributePayment E id
         (WalletService.toNumber E (pay_amount payment))
     else if decide (status payload = JString "failed") then
       payment_update paymentId (Some failed_data);;
       mret tt
     else mret tt)
    (λ error, throw error).

Definition getPaymentStatus (paymentId : string)
    : M (option PaymentWithRelations) :=
  try_catch
    (s ← get;
     mret (p ← payments s !! paymentId;
           Some (mkPaymentWithRelations paymentId p
                   (distributions_of_payment s paymentId)
                   (analysis_of_payment s paymentId))))
    (λ error, throw error).

End WithEnv.
End PaymentService.

(** ** HTTP responses *)

Inductive Body :=
| BodyError (error : string)
| BodyException (e : Exn)
| BodyReceived
| BodyCreated (analysisId paymentId : string) (price : Q)
| BodyProcessed (analysisId : string) (result : option AnalysisResult)
| BodyAnalysis (id : string) (a : Analysis) (payment : option Payment)
| BodyPayment (p : PaymentWithRelations).

Record Response := mkResponse {
  statusCode : nat;
  body : Body
}.

(** [asyncHandler] hands a rejected promise to [errorHandler]; none of the
    errors thrown by the services carries a [status], so the answer is 500. *)
Definition asyncHandler (handler : M Response) : M Response :=
  try_catch handler (λ error, mret (mkResponse 500 (BodyException error))).

(** What the [authenticate] middleware finds in the request: no bearer
    token, a token that does not verify, a token naming no user, or a user,
    whose id it attaches to the request before calling [next]. *)
Inductive Credentials :=
| NoBearerToken
| InvalidToken
| UnknownUser
| Authenticated (userId : string).

Definition authenticate (c : Credentials) (next : string → M Response)
    : M Response :=
  match c with
  | NoBearerToken =>
      mret (mkResponse 401 (BodyError "Authentication token required"))
  | InvalidToken =>
      mret (mkResponse 401 (BodyError "Invalid or expired token"))
  | UnknownUser => mret (mkResponse 401 (BodyError "User not found"))
  | Authenticated id => next id
  end.

(** ** utils/config.ts: the pricing table *)

Definition pricing : list (string * Q) :=
  [ ("basicOverview", 10%Q);
    ("technicalAnalysis", 25%Q);
    ("fundamentalAnalysis", 35%Q);
    ("portfolioReview", 45%Q);
    ("marketSentiment", 20%Q);
    ("defiOpportunities", 50%Q) ].

(** [config.pricing] is an object literal: a key that is not its own is
    looked up on [Object.prototype]. *)
Definition object_prototype_members : list string :=
  [ "constructor"; "toString"; "toLocaleString"; "valueOf";
    "hasOwnProperty"; "isPrototypeOf"; "propertyIsEnumerable"; "__proto__";
    "__defineGetter__"; "__defineSetter__"; "__lookupGetter__";
    "__lookupSetter__" ].

Inductive PricingEntry :=
| PriceNumber (price : Q)
| PriceInherited
| PriceUndefined.

Fixpoint assoc {V} (k : string) (l : list (string * V)) : option V :=
  match l with
  | [] => None
  | (k', v) :: rest => if decide (k' = k) then Some v else assoc k rest
  end.

(** [config.pricing[type as keyof typeof config.pricing]] *)
Definition pricing_lookup (type : string) : PricingEntry :=
  match assoc type pricing with
  | Some q => PriceNumber q
  | None =>
      if bool_decide (type ∈ object_prototype_members) then PriceInherited
      else PriceUndefined
  end.

(** The categories accepted by [schemas.createAnalysis] of the validation
    middleware, the same six the [types] endpoint advertises. *)
Definition analysis_types : list string :=
  [ "BASIC_OVERVIEW"; "TECHNICAL_ANALYSIS"; "FUNDAMENTAL_ANALYSIS";
    "PORTFOLIO_REVIEW"; "MARKET_SENTIMENT"; "DEFI_OPPORTUNITIES" ].

(** [getAnalysisTypes]: the price each category is advertised with. *)
Definition getAnalysisTypes : list (string * option Q) :=
  [ ("BASIC_OVERVIEW", assoc "basicOverview" pricing);
    ("TECHNICAL_ANALYSIS", assoc "technicalAnalysis" pricing);
    ("FUNDAMENTAL_ANALYSIS", assoc "fundamentalAnalysis" pricing);
    ("PORTFOLIO_REVIEW", assoc "portfolioReview" pricing);
    ("MARKET_SENTIMENT", assoc "marketSentiment" pricing);
    ("DEFI_OPPORTUNITIES", assoc "defiOpportunities" pricing) ].

(** ** controllers/analysisController.ts *)

(** JavaScript truthiness of an optional string ([!userId], [a || b]). *)
Definition truthy (v : option string) : bool :=
  match v with
  | None => false
  | Some s => negb (bool_decide (s = ""))
  end.

(** [a || b] on optional strings *)
Definition js_or (a b : option string) : option string :=
  if truthy a then a else b.

Definition set_paymentId (paymentId : string) (a : Analysis) : Analysis :=
  mkAnalysis (an_userId a) (an_type a) (an_symbol a) (an_status a)
    (an_price a) (Some paymentId) (an_result a) (an_completedAt a).

Definition set_completed (r : AnalysisResult) (now : Z) (a : Analysis)
    : Analysis :=
  mkAnalysis (an_userId a) (an_type a) (an_symbol a) A_COMPLETED
    (an_price a) (an_paymentId a) (Some r) (Some now).

(** [prisma.analysis.update({ where: { id }, data })] with a [data] that does
    not name the status column alone. *)
Definition analysis_update (id : string) (upd : Analysis → Analysis)
    : M Analysis :=
  s ← get;
  match analyses s !! id with
  | None => throw PrismaRecordNotFound
  | Some a =>
      modify (set_analyses <[id := upd a]>);;
      emit (EvAnalysisUpdate id None);;
      mret (upd a)
  end.

(** [include: { payment: true }] *)
Definition payment_of_analysis (s : State) (a : Analysis) : option Payment :=
  pid ← an_paymentId a; payments s !! pid.

Module AnalysisController.
Section WithEnv.
Context (E : Env).

(** [createAnalysisRequest]: [user] is [req.user?.id], [type] and [symbol]
    are [req.body.type] and [req.body.parameters.symbol]. *)
Definition createAnalysisRequest (user : option string) (type : string)
    (symbol : option string) : M Response :=
  try_catch
    (match user with
     | Some userId =>
         if negb (truthy user) then
           mret (mkResponse 401 (BodyError "User not authenticated"))
         else
           match pricing_lookup type with
           | PriceUndefined =>
               mret (mkResponse 400 (BodyError "Invalid analysis type"))
           | PriceInherited => throw PrismaValidationError
           | PriceNumber price =>
               if Qeq_bool price 0 then
                 mret (mkResponse 400 (BodyError "Invalid analysis type"))
               else if negb (schema_accepts_type E type) then
                 throw PrismaValidationError
               else
                 s ← get;
                 let id := new_id (analyses s) in
                 modify (set_analyses
                           <[id := mkAnalysis userId type symbol
                                     A_PENDING_PAYMENT price None None
                                     None]>);;
                 emit (EvAnalysisCreate id);;
                 paymentId ← PaymentService.createPayment E userId type price;
                 analysis_update id (set_paymentId paymentId);;
                 mret (mkResponse 200 (BodyCreated id paymentId price))
           end
     | None => mret (mkResponse 401 (BodyError "User not authenticated"))
     end)
    (λ _, mret (mkResponse 500
                  (BodyError "Failed to create analysis request"))).

(** [dataService.getFearGreedIndex()]: falls back to 50, never throws. *)
Definition getFearGreedIndex : M Z :=
  s ← get;
  emit EvGetFearGreedIndex;;
  mret (default 50%Z (fetchFearGreed E (log s))).

(** [Promise.all([getCryptoData(symbol), getMarketData()])]: both requests
    are issued, and the rejection that comes first is thrown; when both
    fail, which one that is depends on the timing of the two services. *)
Definition fetchBoth (symbol : string) : M (string * string) :=
  s ← get;
  let cryptoData := fetchCryptoData E (log s) symbol in
  emit (EvGetCryptoData symbol);;
  s' ← get;
  let marketData := fetchMarketData E (log s') in
  emit EvGetMarketData;;
  s'' ← get;
  match cryptoData, marketData with
  | Some c, Some m => mret (c, m)
  | None, Some _ => throw (DataError "Failed to fetch cryptocurrency data")
  | Some _, None => throw (DataError "Failed to fetch market data")
  | None, None =>
      if cryptoDataRejectsFirst E (log s'')
      then throw (DataError "Failed to fetch cryptocurrency data")
      else throw (DataError "Failed to fetch market data")
  end.

Definition generateAnalysis (type : string) : M string :=
  s ← get;
  emit (EvGenerateAnalysis type);;
  match bedrockAnalysis E (log s) type with
  | Some text => mret text
  | None => throw (Error "Failed to generate AI analysis")
  end.

Definition generateExecutiveSummary (fullAnalysis : string) : M string :=
  s ← get;
  emit EvGenerateExecutiveSummary;;
  match bedrockSummary E (log s) fullAnalysis with
  | Some text => mret text
  | None => throw (Error "Failed to generate executive summary")
  end.

Definition processAnalysis (now : Z) (analysisId : string) : M Response :=
  try_catch
    (s ← get;
     match analyses s !! analysisId with
     | None => mret (mkResponse 404 (BodyError "Analysis not found"))
     | Some analysis =>
         if decide (pay_status <$> payment_of_analysis s analysis
                    ≠ Some COMPLETED) then
           mret (mkResponse 400 (BodyError "Payment not completed"))
         else
           (if decide (an_status analysis ≠ A_PROCESSING) then
              analysis_update_status analysisId A_PROCESSING
            else mret tt);;
           let symbol :=
             default "BTC" (js_or (an_symbol analysis) (Some "BTC")) in
           '(cryptoData, marketData) ← fetchBoth symbol;
           fearGreedIndex ← getFearGreedIndex;
           analysisResult ← generateAnalysis (an_type analysis);
           executiveSummary ← generateExecutiveSummary analysisResult;
           completedAnalysis ←
             analysis_update analysisId
               (set_completed
                  (mkAnalysisResult analysisResult executiveSummary
                     cryptoData marketData fearGreedIndex now)
                  now);
           mret (mkResponse 200
                   (BodyProcessed analysisId (an_result completedAnalysis)))
     end)
    (λ _,
       analysis_update_status analysisId A_FAILED;;
       mret (mkResponse 500 (BodyError "Failed to process analysis"))).

(** [getAnalysis]: [findFirst({ where: { id: analysisId, userId } })]. An
    [undefined] [userId] drops that condition from the query. *)
Definition getAnalysis (analysisId : string) (userId : option string)
    : M Response :=
  try_catch
    (s ← get;
     let analysis :=
       a ← analyses s !! analysisId;
       match userId with
       | Some u => if decide (an_userId a = u) then Some a else None
       | None => Some a
       end in
     match analysis with
     | None => mret (mkResponse 404 (BodyError "Analysis not found"))
     | Some a =>
         mret (mkResponse 200
                 (BodyAnalysis analysisId a (payment_of_analysis s a)))
     end)
    (λ _, mret (mkResponse 500 (BodyError "Failed to get analysis"))).

End WithEnv.
End AnalysisController.

(** ** routes/payments.ts and routes/analysis.ts *)

Module Routes.
Section WithEnv.
Context (E : Env).

(** [GET /:paymentId/status] *)
Definition payment_status (c : Credentials) (paymentId : string)
    : M Response :=
  authenticate c (λ _,
    asyncHandler
      (payment ← PaymentService.getPaymentStatus paymentId;
       match payment with
       | None => mret (mkResponse 404 (BodyError "Payment not found"))
       | Some p => mret (mkResponse 200 (BodyPayment p))
       end)).

(** [POST /webhook]: no [authenticate]; the signature is
    [req.headers['x-signature'] || req.headers['signature']]. *)
Definition webhook (now : Z) (x_signature signature_header : option string)
    (payload : WebhookPayload) : M Response :=
  asyncHandler
    (let signature := js_or x_signature signature_header in
     PaymentService.handlePaymentWebhook E now payload signature;;
     mret (mkResponse 200 BodyReceived)).

(** [schemas.createAnalysis]: the type is one of the six categories and
    [parameters.symbol] is a non-empty string. *)
Definition validate_createAnalysis (type : string) (symbol : option string)
    : bool :=
  bool_decide (type ∈ analysis_types) && truthy symbol.

(** [POST /] of the analysis router *)
Definition create_analysis (c : Credentials) (type : string)
    (symbol : option string) : M Response :=
  authenticate c (λ id,
    if validate_createAnalysis type symbol then
      asyncHandler
        (AnalysisController.createAnalysisRequest E (Some id) type symbol)
    else mret (mkResponse 400 (BodyError "Validation error"))).

(** [GET /:analysisId] *)
Definition get_analysis (c : Credentials) (analysisId : string)
    : M Response :=
  authenticate c (λ id,
    asyncHandler (AnalysisController.getAnalysis analysisId (Some id))).

(** [POST /:analysisId/process] *)
Definition process_analysis (now : Z) (c : Credentials)
    (analysisId : string) : M Response :=
  authenticate c (λ _,
    asyncHandler (AnalysisController.processAnalysis E now analysisId)).

End WithEnv.
End Routes.

(** ** Round-to-nearest on binary64

    The rounding JavaScript applies after every operation on [number]s:
    to the nearest number of the format, ties to the even significand. A
    number of the format is a multiple of [2^e] with a significand below
    [2^53], where [e] is at least -1074: down to [2^-1022] the numbers have
    53 significant bits, below they are the subnormal multiples of
    [2^-1074], zero included. Above [max_double] JavaScript rounds to
    Infinity, which is no rational: [binary64_round] is the rounding of
    JavaScript for the values of magnitude up to [max_double], and it is
    only used for such values. *)

(** The integer nearest to [n / d], ties to even ([0 < d]). *)
Definition nearest_even (n d : Z) : Z :=
  let q := (n / d)%Z in
  match (2 * (n mod d) ?= d)%Z with
  | Lt => q
  | Gt => (q + 1)%Z
  | Eq => if Z.even q then q else (q + 1)%Z
  end.

(** The exponent [b] with [2^b <= n / d < 2^(b+1)] ([0 < n], [0 < d]). *)
Definition floor_log2 (n d : Z) : Z :=
  let e0 := (Z.log2 n - Z.log2 d)%Z in
  if (if (0 <=? e0)%Z then (2 ^ e0 * d <=? n)%Z
      else (d <=? n * 2 ^ (- e0))%Z)
  then e0 else (e0 - 1)%Z.

(** [n / d] rounded to a multiple of [2^e]. *)
Definition round_to (e n d : Z) : Q :=
  if (0 <=? e)%Z then inject_Z (nearest_even n (d * 2 ^ e) * 2 ^ e)
  else Qmake (nearest_even (n * 2 ^ (- e)) d) (Z.to_pos (2 ^ (- e))).

(** [n / d] rounded to 53 significant bits, or to the subnormal grid when
    that is coarser. *)
Definition round_pos (n d : Z) : Q :=
  round_to (Z.max (floor_log2 n d - 52) (-1074)) n d.

Definition binary64_round (x : Q) : Q :=
  Qred (match Qnum x with
        | Z0 => 0
        | Zpos _ => round_pos (Qnum x) (Zpos (Qden x))
        | Zneg _ => - round_pos (- Qnum x) (Zpos (Qden x))
        end).

(** The unit roundoff of binary64. *)
Definition unit_roundoff : Q := 1 # 2 ^ 53.

(** Half the spacing of the subnormal numbers. *)
Definition half_subnormal : Q := 1 # 2 ^ 1075.

(** [Number.MAX_VALUE], the largest finite number. *)
Definition max_double : Q := inject_Z (2 ^ 1024 - 2 ^ 971).

(** ** app.ts: the routes the server mounts

    [server.ts] starts the express application of [app.ts], which declares
    its routes inline instead of mounting the routers. Its analysis and
    payment routes work on the same tables as the services; they answer with
    JSON objects of their own. The request body of the create route is
    taken with a string [type] and an object [parameters]. *)

Inductive AppBody :=
| AppError (error : string)
| AppReceived
| AppCreated (analysisId paymentId : string) (price : Q)
| AppPayment (id : string) (p : Payment)
    (analysis : option (string * Analysis))
| AppCompleted (id : string) (p : Payment).

Record AppResponse := mkAppResponse {
  app_status : nat;
  app_body : AppBody
}.

Module App.

(** The [authenticate] of app.ts, which answers as the middleware does. *)
Definition authenticate (c : Credentials) (next : string → M AppResponse)
    : M AppResponse :=
  match c with
  | NoBearerToken =>
      mret (mkAppResponse 401 (AppError "Authentication token required"))
  | InvalidToken =>
      mret (mkAppResponse 401 (AppError "Invalid or expired token"))
  | UnknownUser => mret (mkAppResponse 401 (AppError "User not found"))
  | Authenticated id => next id
  end.

(** [app.post('/api/analysis', authenticate, ...)]: no validation
    middleware, and the payment row is created in place, with no call to
    the gateway. *)
Definition create_analysis (E : Env) (c : Credentials) (type : string)
    (symbol : option string) : M AppResponse :=
  authenticate c (λ userId,
    try_catch
      (if negb (truthy (Some userId)) then
         mret (mkAppResponse 401 (AppError "User not authenticated"))
       else
         match pricing_lookup type with
         | PriceUndefined =>
             mret (mkAppResponse 400 (AppError "Invalid analysis type"))
         | PriceInherited => throw PrismaValidationError
         | PriceNumber price =>
             if Qeq_bool price 0 then
               mret (mkAppResponse 400 (AppError "Invalid analysis type"))
             else if negb (schema_accepts_type E type) then
               throw PrismaValidationError
             else
               s ← get;
               let aid := new_id (analyses s) in
               modify (set_analyses
                         <[aid := mkAnalysis userId type symbol
                                    A_PENDING_PAYMENT price None None None]>);;
               emit (EvAnalysisCreate aid);;
               s' ← get;
               let pid := new_id (payments s') in
               modify (set_payments
                         <[pid := mkPayment userId price "USD" PENDING None
                                    None None]>);;
               emit (EvPaymentCreate pid);;
               analysis_update aid (set_paymentId pid);;
               mret (mkAppResponse 200 (AppCreated aid pid price))
         end)
      (λ _, mret (mkAppResponse 500
                    (AppError "Failed to create analysis request")))).

(** [app.get('/api/payments/:paymentId/status', authenticate, ...)]:
    [include: { analysis: true }] only. *)
Definition payment_status (c : Credentials) (paymentId : string)
    : M AppResponse :=
  authenticate c (λ _,
    try_catch
      (s ← get;
       match payments s !! paymentId with
       | None => mret (mkAppResponse 404 (AppError "Payment not found"))
       | Some p =>
           mret (mkAppResponse 200
                   (AppPayment paymentId p (analysis_of_payment s paymentId)))
       end)
      (λ _, mret (mkAppResponse 500
                    (AppError "Failed to get payment status")))).

(** [app.post('/api/payments/:paymentId/complete', authenticate, ...)], the
    "mock payment completion for demo". [hash] is the random string
    [`0x${Math.random().toString(16).substr(2, 64)}`] of this request. *)
Definition complete_payment (now : Z) (hash : string) (c : Credentials)
    (paymentId : string) : M AppResponse :=
  authenticate c (λ _,
    try_catch
      ('(id, payment) ← payment_update (JString paymentId)
                          (completed_data (JString hash) now);
       mret (mkAppResponse 200 (AppCompleted id payment)))
      (λ _, mret (mkAppResponse 500
                    (AppError "Failed to complete payment")))).

(** [app.post('/api/payments/webhook', ...)]: the update of the "completed"
    branch and nothing else. *)
Definition webhook (now : Z) (payload : WebhookPayload) : M AppResponse :=
  try_catch
    ((if decide (status payload = JString "completed") then
        payment_update (reference payload)
          (completed_data (transaction_hash payload) now);;
        mret tt
      else mret tt);;
     mret (mkAppResponse 200 AppReceived))
    (λ _, mret (mkAppResponse 500 (AppError "Webhook processing failed"))).

End App.

(** ** walletService.ts: the platform wallet

    [created] is the outcome of [this.coinbase.createWallet()] for the call
    at hand, the id of the new wallet or what the custodian throws;
    [addresses] is the outcome of [listAddresses()], the ids of the wallet's
    addresses. *)

Module PlatformWallet.

Definition set_platformWallet (w : option string) (s : State) : State :=
  mkState (payments s) (analyses s) (distributions s) (stakeholders s) w
    (log s).

Definition initializePlatformWallet (created : Res string) : M unit :=
  try_catch
    (match created with
     | Ok w => modify (set_platformWallet (Some w))
     | Throw e => throw e
     end)
    (λ error, throw error).

Definition getPlatformWalletAddress (created : Res string)
    (addresses : Res (list string)) : M string :=
  s ← get;
  match platformWallet s with
  | Some _ => mret tt
  | None => initializePlatformWallet created
  end;;
  match addresses with
  | Throw e => throw e
  | Ok (first :: _) => mret first
  | Ok [] =>
      throw (Error "Cannot read properties of undefined (reading 'getId')")
  end.

End PlatformWallet.

(** ** walletService.createUserWallet and routes/wallet.ts

    These work on the users table only, which is threaded explicitly. *)

Record UserRow := mkUser {
  user_email : string;
  user_walletId : option string
}.

(** What [jwt.verify] makes of the authorization header. *)
Inductive Token :=
| NoToken
| BadToken
| TokenOf (userId : string).

Inductive WalletBody :=
| WalletError (error : string)
| WalletException (e : Exn)
| WalletCreated (walletId : string)
| WalletBalances (balances : list (string * string)).

Record WalletResponse := mkWalletResponse {
  wallet_status : nat;
  wallet_body : WalletBody
}.

Module WalletRoutes.

(** [walletService.createUserWallet(userId)]: the wallet is created first,
    then bound by [prisma.user.update]. *)
Definition createUserWallet (created : Res string) (userId : string)
    (users : gmap string UserRow) : Res string * gmap string UserRow :=
  match created with
  | Throw e => (Throw e, users)
  | Ok w =>
      match users !! userId with
      | None => (Throw PrismaRecordNotFound, users)
      | Some u => (Ok w, <[userId := mkUser (user_email u) (Some w)]> users)
      end
  end.

(** The [authenticate] middleware against the users table. *)
Definition authenticate (t : Token) (users : gmap string UserRow)
    : WalletResponse + string * UserRow :=
  match t with
  | NoToken =>
      inl (mkWalletResponse 401 (WalletError "Authentication token required"))
  | BadToken =>
      inl (mkWalletResponse 401 (WalletError "Invalid or expired token"))
  | TokenOf id =>
      match users !! id with
      | None => inl (mkWalletResponse 401 (WalletError "User not found"))
      | Some u => inr (id, u)
      end
  end.

(** [router.post('/create', authenticate, asyncHandler(...))] *)
Definition create (created : Res string) (t : Token)
    (users : gmap string UserRow) : WalletResponse * gmap string UserRow :=
  match authenticate t users with
  | inl refused => (refused, users)
  | inr (userId, user) =>
      if truthy (user_walletId user) then
        (mkWalletResponse 400 (WalletError "User already has a wallet"), users)
      else
        match createUserWallet created userId users with
        | (Ok walletId, users') =>
            (mkWalletResponse 200 (WalletCreated walletId), users')
        | (Throw e, users') =>
            (mkWalletResponse 500 (WalletException e), users')
        end
  end.

(** [router.get('/:walletId/balance', authenticate, asyncHandler(...))];
    [balances] is the custodian's answer for the wallet. *)
Definition balance (balances : Res (list (string * string))) (t : Token)
    (walletId : string) (users : gmap string UserRow) : WalletResponse :=
  match authenticate t users with
  | inl refused => refused
  | inr (_, user) =>
      if decide (user_walletId user ≠ Some walletId) then
        mkWalletResponse 403 (WalletError "Access denied")
      else
        match balances with
        | Ok b => mkWalletResponse 200 (WalletBalances b)
        | Throw e => mkWalletResponse 500 (WalletException e)
        end
  end.

End WalletRoutes.

(** ** app.ts: [validateEmail]

    [/^[^\s@]+@[^\s@]+\.[^\s@]+$/.test(email)]. A JavaScript string is the
    list of its UTF-16 code units; the regular expression has no flags, so
    it works on code units and is anchored at both ends. *)

(** [\s]: the white space and line terminator code points of ECMAScript. *)
Definition js_whitespace (c : N) : bool :=
  ((9 <=? c) && (c <=? 13) || (c =? 32) || (c =? 160) || (c =? 5760)
   || (8192 <=? c) && (c <=? 8202) || (c =? 8232) || (c =? 8233)
   || (c =? 8239) || (c =? 8287) || (c =? 12288) || (c =? 65279))%N.

(** The class [[^\s@]]; 64 is the at sign, 46 the full stop. *)
Definition email_char (c : N) : bool :=
  negb (js_whitespace c) && negb (c =? 64)%N.

Inductive regex :=
| Class (p : N → bool)
| Lit (c : N)
| Plus (r : regex)
| Seq (r1 r2 : regex).

(** A word is matched, as a whole, by a regular expression. *)
Inductive matches : regex → list N → Prop :=
| matches_class p c : p c = true → matches (Class p) [c]
| matches_lit c : matches (Lit c) [c]
| matches_plus_once r w : matches r w → matches (Plus r) w
| matches_plus_more r w1 w2 :
    matches r w1 → matches (Plus r) w2 → matches (Plus r) (w1 ++ w2)
| matches_seq r1 r2 w1 w2 :
    matches r1 w1 → matches r2 w2 → matches (Seq r1 r2) (w1 ++ w2).

Definition email_regex : regex :=
  Seq (Plus (Class email_char))
    (Seq (Lit 64)
       (Seq (Plus (Class email_char))
          (Seq (Lit 46) (Plus (Class email_char))))).

(** The word up to the first occurrence of [c], and the word after it. *)
Fixpoint split_at (c : N) (w : list N) : option (list N * list N) :=
  match w with
  | [] => None
  | x :: rest =>
      if (x =? c)%N then Some ([], rest)
      else match split_at c rest with
           | Some (before, after) => Some (x :: before, after)
           | None => None
           end
  end.

(** A full stop that is neither the first nor the last code unit. *)
Definition inner_dot (w : list N) : bool :=
  match w with
  | [] => false
  | _ :: rest => existsb (λ x, (x =? 46)%N) (removelast rest)
  end.

(** The test as a check on the code units: a non-empty local part before
    the first at sign, no white space and no further at sign anywhere, and
    an inner full stop in the rest. *)
Definition validateEmail (email : list N) : bool :=
  match split_at 64 email with
  | Some (local_part, domain) =>
      negb (bool_decide (local_part = [])) &&
      forallb email_char local_part &&
      forallb email_char domain &&
      inner_dot domain
  | None => false
  end.

(** The code units of an ASCII string. *)
Definition code_units (s : string) : list N :=
  map Ascii.N_of_ascii (String.list_ascii_of_string s).

(** ** Named responses and shared example data *)

(** An environment with binary64 arithmetic, a custodial wallet that refuses
    the second transfer it is asked for and serves the others, and services
    that answer. *)
Definition is_transfer (e : Event) : bool :=
  match e with EvTransfer _ _ _ => true | _ => false end.

Definition count_transfers (evs : list Event) : nat :=
  length (List.filter is_transfer evs).

Definition demoEnv : Env :=
  mkEnv binary64_round
    (λ evs _ dest,
       if decide (count_transfers evs = 1%nat) then None
       else Some ("0x" +:+ dest))
    (λ _ ref _, Some ("x402-" +:+ ref))
    (λ _ _, Some "quote") (λ _, Some "global") (λ _, Some 62%Z)
    (λ _ _, Some "report") (λ _ _, Some "summary")
    (λ _, true) (λ _, true).

Definition demoPayment : Payment :=
  mkPayment "alice" 25 "USD" PENDING (Some "x402-p1") None None.

Definition demoAnalysis : Analysis :=
  mkAnalysis "alice" "TECHNICAL_ANALYSIS" (Some "BTC") A_PENDING_PAYMENT 25
    (Some "p1") None None.

Definition demoStakeholders : list Stakeholder :=
  [ mkStakeholder "w-platform" 60 "PLATFORM" true;
    mkStakeholder "w-data" 25 "DATA_PROVIDER" true;
    mkStakeholder "w-research" 15 "RESEARCHER" true;
    mkStakeholder "w-retired" 10 "RESEARCHER" false ].

(** The state right after alice's request was created; the wallet service
    of the payment service is as its constructor leaves it. *)
Definition demoState : State :=
  mkState {[ "p1" := demoPayment ]} {[ "a1" := demoAnalysis ]} []
    demoStakeholders None [].

(** The same with an initialised platform wallet. *)
Definition demoStateWallet : State :=
  mkState {[ "p1" := demoPayment ]} {[ "a1" := demoAnalysis ]} []
    demoStakeholders (Some "platform-wallet") [].

(** Two payments of two users, each with its analysis, and distribution
    rows of both in the order they were written. *)
Definition bobPayment : Payment :=
  mkPayment "bob" 10 "USD" COMPLETED (Some "x402-p2") (Some "0xdef")
    (Some 500%Z).

Definition bobAnalysis : Analysis :=
  mkAnalysis "bob" "basicOverview" (Some "ETH") A_PROCESSING 10 (Some "p2")
    None None.

Definition twoPaymentsState : State :=
  mkState {[ "p1" := demoPayment; "p2" := bobPayment ]}
    {[ "a1" := demoAnalysis; "a2" := bobAnalysis ]}
    [ mkDistribution "p2" "w-platform" 6 "PLATFORM" completed (Some "0x01");
      mkDistribution "p1" "w-platform" 15 "PLATFORM" completed (Some "0x02");
      mkDistribution "p2" "w-data" 4 "DATA_PROVIDER" failed None;
      mkDistribution "p1" "w-data" 10 "DATA_PROVIDER" pending None ]
    demoStakeholders None [].

Definition payment_not_completed : Response :=
  mkResponse 400 (BodyError "Payment not completed").

Definition analysis_not_found : Response :=
  mkResponse 404 (BodyError "Analysis not found").

(** Two active entries paying into one wallet under one category. *)
Definition sharedWalletState : State :=
  mkState {[ "p1" := demoPayment ]} {[ "a1" := demoAnalysis ]} []
    [ mkStakeholder "w-lab" 60 "RESEARCHER" true;
      mkStakeholder "w-lab" 40 "RESEARCHER" true ]
    (Some "platform-wallet") [].

(** The state one completed run of [distributePayment] leaves behind: it
    holds three rows of payment "p1". *)
Definition distributedState : State :=
  state_of (WalletService.distributePayment demoEnv "p1" 25 demoStateWallet).

(** ** Reading the audit log and the distribution table *)

(** The transfers recorded in a stretch of the log, oldest first: amount,
    destination and outcome of each attempt. *)
Definition transfer_of (e : Event) : option (Q * string * option string) :=
  match e with
  | EvTransfer amount destination outcome =>
      Some (amount, destination, outcome)
  | _ => None
  end.

Definition transfers (evs : list Event) : list (Q * string * option string) :=
  omap transfer_of evs.

(** The events appended to the log by a run that started in [s] and ended
    in [s']. *)
Definition new_events (s s' : State) : list Event :=
  drop (length (log s)) (log s').

(** The rows appended to the PaymentDistribution table by such a run. *)
Definition new_rows (s s' : State) : list PaymentDistribution :=
  drop (length (distributions s)) (distributions s').

(** What an attempt's outcome makes of a row: the two [updateMany] data. *)
Definition settle (d : PaymentDistribution) (outcome : option string)
    : PaymentDistribution :=
  match outcome with
  | Some h => WalletService.mark_completed h d
  | None => WalletService.mark_failed d
  end.

(** The columns by which [updateMany] finds a row again (next to the payment
    id): recipient wallet and category. *)
Definition row_key (d : PaymentDistribution) : string * string :=
  (recipient d, pd_type d).

Definition stakeholder_key (sh : Stakeholder) : string * string :=
  (walletId sh, sh_type sh).

(** What the [updateMany] of one iteration makes of a row of the table:
    the iteration is for the distribution [fst attempt], whose transfer had
    the outcome [snd attempt]; the row is rewritten when its payment id,
    recipient and type are the ones in the [where] clause, whichever
    distribution the row was written for. *)
Definition settle_where (paymentId : string) (r : PaymentDistribution)
    (attempt : PaymentDistribution * option string) : PaymentDistribution :=
  if bool_decide (pd_paymentId r = paymentId ∧
                  recipient r = recipient (fst attempt) ∧
                  pd_type r = pd_type (fst attempt))
  then settle r (snd attempt) else r.

(** The columns of a row no update ever writes. *)
Definition row_identity (d : PaymentDistribution)
    : string * string * Q * string :=
  (pd_paymentId d, recipient d, pd_amount d, pd_type d).

(** One iteration of the transfer loop as a state transformer. *)
Definition transfer_step (E : Env) (paymentId : string) (s : State)
    (d : PaymentDistribution) : State :=
  let outcome := createTransfer E (log s) (pd_amount d) (recipient d) in
  mkState (payments s) (analyses s)
    (map (λ r, if WalletService.row_matches paymentId (recipient d)
                    (pd_type d) r
               then settle r outcome else r)
         (distributions s))
    (stakeholders s) (platformWallet s)
    (log s ++ [ EvTransfer (pd_amount d) (recipient d) outcome;
                EvDistributionUpdateMany paymentId (recipient d) (pd_type d)
                  (match outcome with Some _ => completed | None => failed end) ])%list.

(** The state right after [createMany]. *)
Definition persisted (rows : list PaymentDistribution) (s : State) : State :=
  mkState (payments s) (analyses s) (distributions s ++ rows)%list
    (stakeholders s) (platformWallet s)
    (log s ++ [EvDistributionCreateMany rows])%list.

Fixpoint Qsum (l : list Q) : Q :=
  match l with
  | [] => 0
  | x :: rest => x + Qsum rest
  end.

(** The local [distributions] array of [distributePayment]. *)
Definition distribution_rows (E : Env) (paymentId : string) (totalAmount : Q)
    (s : State) : list PaymentDistribution :=
  map (WalletService.new_distribution E paymentId totalAmount)
      (WalletService.active_stakeholders s).

(** ** The "completed" branch of the webhook, step by step *)

(** The payment row the "completed" branch writes: status, hash and
    completion time are overwritten, the rest is kept. *)
Definition completed_payment (h : string) (now : Z) (p : Payment) : Payment :=
  mkPayment (pay_userId p) (pay_amount p) (pay_currency p) COMPLETED
    (pay_x402PaymentId p) (Some h) (Some now).

(** The state after [prisma.payment.update]. *)
Definition after_payment_update (id : string) (p' : Payment) (s : State)
    : State :=
  mkState (<[id := p']> (payments s)) (analyses s) (distributions s)
    (stakeholders s) (platformWallet s) (log s ++ [EvPaymentUpdate id])%list.

(** The state after [processPaymentCompletion]. *)
Definition after_completion_hook (id : string) (s : State) : State :=
  match analysis_of_payment s id with
  | Some (aid, a) =>
      mkState (payments s) (<[aid := with_status A_PROCESSING a]> (analyses s))
        (distributions s) (stakeholders s) (platformWallet s)
        (log s ++ [EvAnalysisUpdate aid (Some A_PROCESSING)])%list
  | None => s
  end.

(** A well-formed notification for payment "p1". *)
Definition demoPayload : WebhookPayload :=
  mkPayload (JString "p1") (JString "completed") (JString "0xabc").

(** ** The properties under study, as predicates on one run *)

(** Failure isolation: the run does not throw, one transfer is attempted per
    row, in the order of the rows, and every row of the run ends up settled
    by the outcome of its own transfer (completed with the hash, or
    failed). *)
Definition settled_by_own_transfer (E : Env) (paymentId : string)
    (totalAmount : Q) (s : State) : Prop :=
  let r := WalletService.distributePayment E paymentId totalAmount s in
  let rows := distribution_rows E paymentId totalAmount s in
  let attempts := transfers (new_events s (state_of r)) in
  result_of r = Ok tt ∧
  map fst attempts = map (λ d, (pd_amount d, recipient d)) rows ∧
  new_rows s (state_of r) = zip_with settle rows (map snd attempts).

(** The split of the whole amount: the run appends one row per active
    stakeholder, with the amount of that stakeholder's percentage, and the
    amounts of these rows sum to the total within [tolerance]. *)
Definition distributes_whole_amount (E : Env) (paymentId : string)
    (totalAmount tolerance : Q) (s : State) : Prop :=
  let rows :=
    new_rows s
      (state_of (WalletService.distributePayment E paymentId totalAmount s)) in
  Forall2 (λ row sh,
             recipient row = walletId sh ∧
             pd_amount row
             = js_round E (totalAmount
                           * js_round E (js_round E (percentage sh) / 100)))
    rows (filter (λ sh, isActive sh = true) (stakeholders s)) ∧
  (Qabs (Qsum (map pd_amount rows) - totalAmount) <= tolerance)%Q.

(** Distribution keyed by the payment id: a run that finds rows of the
    payment in the table adds none and transfers nothing. *)
Definition distributes_at_most_once (E : Env) (paymentId : string)
    (totalAmount : Q) (s : State) : Prop :=
  distributions_of_payment s paymentId ≠ [] →
  let r := WalletService.distributePayment E paymentId totalAmount s in
  distributions (state_of r) = distributions s ∧
  transfers (new_events s (state_of r)) = [].

(** Two deliveries of one "completed" notification, at times [t1] and [t2]:
    the second changes neither the payment row nor anything else, that is,
    it performs no write and no call. *)
Definition second_delivery_is_noop (E : Env) (t1 t2 : Z)
    (payload : WebhookPayload) (signature : option string) (s : State)
    : Prop :=
  let s1 :=
    state_of (PaymentService.handlePaymentWebhook E t1 payload signature s) in
  let s2 :=
    state_of (PaymentService.handlePaymentWebhook E t2 payload signature s1) in
  payments s2 = payments s1 ∧ log s2 = log s1.

(** ** Sequences of webhook deliveries *)

(** One delivery as the gateway makes it: time of arrival, the two signature
    headers, the body. *)
Record Delivery := mkDelivery {
  dl_now : Z;
  dl_x_signature : option string;
  dl_signature : option string;
  dl_payload : WebhookPayload
}.

(** The state after serving a list of deliveries through the webhook route,
    one after the other. *)
Definition serve_deliveries (E : Env) (ds : list Delivery) (s : State)
    : State :=
  foldl (λ s d, state_of (Routes.webhook E (dl_now d) (dl_x_signature d)
                            (dl_signature d) (dl_payload d) s))
    s ds.

(** ** States left behind by the creation paths *)

(** A state with a platform wallet whose only stakeholder is inactive. *)
Definition idleState : State :=
  mkState {[ "p1" := demoPayment ]} ∅ []
    [ mkStakeholder "w-retired" 100 "RESEARCHER" false ]
    (Some "platform-wallet") [].

(** The row [createPayment] inserts, with the gateway reference it may get
    later. *)
Definition pending_payment (userId : string) (amount : Q)
    (x402 : option string) : Payment :=
  mkPayment userId amount "USD" PENDING x402 None None.

(** The events of [createPayment] up to the answer of the gateway. *)
Definition payment_request_events (E : Env) (id : string) (amount : Q)
    (outcome : option string) : list Event :=
  [ EvPaymentCreate id;
    EvX402Post id (WalletService.js_mul E amount 100) outcome ].

(** The row [createAnalysisRequest] inserts, with the payment link it may
    get later. *)
Definition requested_analysis (userId type : string) (symbol : option string)
    (price : Q) (paymentId : option string) : Analysis :=
  mkAnalysis userId type symbol A_PENDING_PAYMENT price paymentId None None.

(** An environment in which every external service is down: transfers,
    the gateway, market data and text generation all fail. *)
Definition offlineEnv : Env :=
  mkEnv binary64_round (λ _ _ _, None) (λ _ _ _, None)
    (λ _ _, None) (λ _, None) (λ _, None) (λ _ _, None) (λ _ _, None)
    (λ _, true) (λ _, false).

(** ** [processAnalysis] past the payment gate *)

(** [analysis.parameters.symbol || 'BTC'] *)
Definition symbol_of (a : Analysis) : string :=
  default "BTC" (js_or (an_symbol a) (Some "BTC")).

(** A state whose payment "p1" is COMPLETED, so that analysis "a1" may be
    processed. *)
Definition paidState : State :=
  mkState {[ "p1" := completed_payment "0xabc" 1000 demoPayment ]}
    {[ "a1" := demoAnalysis ]} [] demoStakeholders None [].

(** ** The aggregates of the revenue dashboard

    [getRevenueDashboard] runs four independent queries; the first two are
    [prisma.payment.aggregate({ where: { status: 'COMPLETED' },
    _sum: { amount: true } })], answered as [_sum.amount || 0], and
    [prisma.analysis.count({ where: { status: 'COMPLETED' } })]. Decimal
    sums are exact. *)

Definition completed_payments (s : State) : list (string * Payment) :=
  filter (λ kv, pay_status (snd kv) = COMPLETED) (map_to_list (payments s)).

Definition totalRevenue (s : State) : Q :=
  Qsum (map (λ kv, pay_amount (snd kv)) (completed_payments s)).

Definition totalAnalyses (s : State) : nat :=
  length (filter (λ kv, an_status (snd kv) = A_COMPLETED)
            (map_to_list (analyses s))).

(** What one payment adds to the revenue total. *)
Definition revenue_share (p : Payment) : Q :=
  if decide (pay_status p = COMPLETED) then pay_amount p else 0.

(** The sum of the shares of all rows of a payments table. *)
Definition revenue_of (rows : list (string * Payment)) : Q :=
  Qsum (map (λ kv, revenue_share (snd kv)) rows).

(** * Properties *)

(** ** Running the monad *)

Lemma bind_Ok {A B} (m : M A) (f : A → M B) s a s' :
  m s = (Ok a, s') → (m ≫= f) s = f a s'.
Proof. intros H. unfold mbind, M_bind. by rewrite H. Qed.

Lemma bind_Throw {A B} (m : M A) (f : A → M B) s e s' :
  m s = (Throw e, s') → (m ≫= f) s = (Throw e, s').
Proof. intros H. unfold mbind, M_bind. by rewrite H. Qed.

Lemma try_catch_Ok {A} (m : M A) h s a s' :
  m s = (Ok a, s') → try_catch m h s = (Ok a, s').
Proof. intros H. unfold try_catch. by rewrite H. Qed.

Lemma try_catch_Throw {A} (m : M A) h s e s' :
  m s = (Throw e, s') → try_catch m h s = h e s'.
Proof. intros H. unfold try_catch. by rewrite H. Qed.

(** [catch (error) { throw error }] changes nothing. *)
Lemma try_catch_rethrow {A} (m : M A) s :
  try_catch m (λ error, throw error) s = m s.
Proof. unfold try_catch, throw. by destruct (m s) as [[a|e] s']. Qed.

Ltac run := unfold mbind, mret, M_bind, M_ret, get, modify, emit,
  throw in *; simpl in *.

(** ** The payment gate of [processAnalysis] *)

(** C5. For every analysis whose linked payment is absent or in a status
    other than COMPLETED, [processAnalysis] answers 400 "Payment not
    completed" whatever the status of the analysis, and the whole state is
    left as it was: no row is written and no data or generation service is
    called (the audit log is unchanged). *)
Theorem processAnalysis_payment_gate (E : Env) (now : Z) (analysisId : string)
    (s : State) (a : Analysis) :
  analyses s !! analysisId = Some a →
  pay_status <$> payment_of_analysis s a ≠ Some COMPLETED →
  AnalysisController.processAnalysis E now analysisId s
  = (Ok payment_not_completed, s).
Proof.
  intros Ha Hpay. unfold AnalysisController.processAnalysis.
  apply try_catch_Ok. run. rewrite Ha.
  destruct (decide _) as [_|Hc]; [done|]. by destruct Hc.
Qed.

Lemma processAnalysis_payment_gate_witness :
  AnalysisController.processAnalysis demoEnv 1000 "a1" demoState
  = (Ok payment_not_completed, demoState).
Proof.
  apply (processAnalysis_payment_gate demoEnv 1000 "a1" demoState
           demoAnalysis).
  - reflexivity.
  - vm_compute. discriminate.
Defined.

(** ** Ownership masking in [getAnalysis] *)

(** C9. [getAnalysis] never changes the state, and for every id and every
    requesting user exactly one of two things happens: the analysis exists
    and belongs to the requester, and it is returned; or the answer is the
    one fixed 404 "Analysis not found" response, the same whether the id is
    unknown or the analysis belongs to somebody else. *)
Theorem getAnalysis_owner_only (analysisId userId : string) (s : State) :
  let r := AnalysisController.getAnalysis analysisId (Some userId) s in
  state_of r = s ∧
  ((∃ a, analyses s !! analysisId = Some a ∧ an_userId a = userId ∧
         result_of r
         = Ok (mkResponse 200
                 (BodyAnalysis analysisId a (payment_of_analysis s a)))) ∨
   ((analyses s !! analysisId = None ∨
     ∃ a, analyses s !! analysisId = Some a ∧ an_userId a ≠ userId) ∧
    result_of r = Ok analysis_not_found)).
Proof.
  unfold AnalysisController.getAnalysis, try_catch. run.
  destruct (analyses s !! analysisId) as [a|] eqn:Ha; simpl.
  - destruct (decide (an_userId a = userId)) as [Hu|Hu]; simpl.
    + split; [done|]. left. by exists a.
    + split; [done|]. right. split; [|done]. right. by exists a.
  - split; [done|]. right. split; [|done]. by left.
Qed.

(** ** [getPaymentStatus] checks no ownership *)

(** C10. For every existing payment and every authenticated requester, the
    status route answers 200 with the payment, the distribution rows whose
    payment id is the requested one (in table order, no row of another
    payment) and the analysis linked to it: an analysis of the table whose
    payment id is the requested one, or none when no analysis carries that
    id. The requester's identity does not enter the answer, so a payment
    owned by another user is returned all the same, and the state is not
    changed. *)
Theorem payment_status_ignores_owner (requester paymentId : string)
    (p : Payment) (s : State) :
  payments s !! paymentId = Some p →
  ∃ linked : option (string * Analysis),
    Routes.payment_status (Authenticated requester) paymentId s
    = (Ok (mkResponse 200
             (BodyPayment
                (mkPaymentWithRelations paymentId p
                   (filter (λ d, pd_paymentId d = paymentId)
                      (distributions s))
                   linked))), s) ∧
    match linked with
    | Some (aid, a) =>
        analyses s !! aid = Some a ∧ an_paymentId a = Some paymentId
    | None =>
        ∀ aid a, analyses s !! aid = Some a →
                 an_paymentId a ≠ Some paymentId
    end.
Proof.
  intros Hp. exists (analysis_of_payment s paymentId). split.
  - unfold Routes.payment_status, authenticate, asyncHandler.
    apply try_catch_Ok.
    unfold PaymentService.getPaymentStatus.
    erewrite bind_Ok.
    2:{ rewrite try_catch_rethrow. run. rewrite Hp. simpl. reflexivity. }
    reflexivity.
  - unfold analysis_of_payment.
    destruct (List.find _ (map_to_list (analyses s))) as [[aid a]|] eqn:Hfind.
    + apply find_some in Hfind as [Hin Hbound].
      apply list_elem_of_In, elem_of_map_to_list in Hin.
      by apply bool_decide_eq_true in Hbound.
    + intros aid a Ha Hbound.
      apply elem_of_map_to_list, list_elem_of_In in Ha.
      apply (find_none _ _ Hfind) in Ha. simpl in Ha.
      by apply bool_decide_eq_false in Ha.
Qed.

Lemma payment_status_ignores_owner_witness :
  pay_userId demoPayment ≠ "mallory" ∧
  ∃ linked : option (string * Analysis),
    Routes.payment_status (Authenticated "mallory") "p1" twoPaymentsState
    = (Ok (mkResponse 200
             (BodyPayment
                (mkPaymentWithRelations "p1" demoPayment
                   (filter (λ d, pd_paymentId d = "p1")
                      (distributions twoPaymentsState))
                   linked))), twoPaymentsState) ∧
    match linked with
    | Some (aid, a) =>
        analyses twoPaymentsState !! aid = Some a ∧
        an_paymentId a = Some "p1"
    | None =>
        ∀ aid a, analyses twoPaymentsState !! aid = Some a →
                 an_paymentId a ≠ Some "p1"
    end.
Proof.
  split; [discriminate|].
  apply (payment_status_ignores_owner "mallory" "p1" demoPayment
           twoPaymentsState).
  reflexivity.
Defined.

(** The answer in full: of the four rows and two analyses of the table,
    mallory is shown the two rows and the analysis of alice's payment. *)
Example payment_status_two_payments :
  Routes.payment_status (Authenticated "mallory") "p1" twoPaymentsState
  = (Ok (mkResponse 200
           (BodyPayment
              (mkPaymentWithRelations "p1" demoPayment
                 [ mkDistribution "p1" "w-platform" 15 "PLATFORM" completed
                     (Some "0x02");
                   mkDistribution "p1" "w-data" 10 "DATA_PROVIDER" pending
                     None ]
                 (Some ("a1", demoAnalysis))))), twoPaymentsState).
Proof. vm_compute. reflexivity. Qed.

(** ** The transfer loop of [distributePayment] *)

Section TransferLoop.
Context (E : Env) (paymentId : string).

Lemma executeTransfer_run (d : PaymentDistribution) (s : State) :
  WalletService.executeTransfer E paymentId d s
  = (Ok tt, transfer_step E paymentId s d).
Proof.
  unfold WalletService.executeTransfer, WalletService.transfer,
    WalletService.updateMany, try_catch, transfer_step.
  run.
  destruct (createTransfer E (log s) (pd_amount d) (recipient d));
    run; by rewrite <- app_assoc.
Qed.

(** The loop never throws: a failed transfer is absorbed by its own
    iteration. *)
Lemma executeTransfers_run (ds : list PaymentDistribution) (s : State) :
  WalletService.executeTransfers E paymentId ds s
  = (Ok tt, foldl (transfer_step E paymentId) s ds).
Proof.
  revert s. induction ds as [|d rest IH]; intros s; [done|].
  simpl. erewrite bind_Ok by apply executeTransfer_run. apply IH.
Qed.

Lemma transfer_loop_frame (ds : list PaymentDistribution) (s : State) :
  let s' := foldl (transfer_step E paymentId) s ds in
  payments s' = payments s ∧ analyses s' = analyses s ∧
  stakeholders s' = stakeholders s ∧ platformWallet s' = platformWallet s.
Proof.
  revert s. induction ds as [|d rest IH]; intros s; [done|].
  simpl. destruct (IH (transfer_step E paymentId s d)) as (?&?&?&?).
  by repeat split.
Qed.

Lemma settle_identity (r : PaymentDistribution) (o : option string) :
  row_identity (settle r o) = row_identity r.
Proof. by destruct o. Qed.

(** No iteration adds, removes or re-addresses a row. *)
Lemma transfer_loop_identity (ds : list PaymentDistribution) (s : State) :
  map row_identity (distributions (foldl (transfer_step E paymentId) s ds))
  = map row_identity (distributions s).
Proof.
  revert s. induction ds as [|d rest IH]; intros s; [done|].
  simpl. rewrite IH. simpl. rewrite <- list_fmap_compose.
  apply list_fmap_ext. intros i r _. simpl.
  destruct (WalletService.row_matches _ _ _ r); [|done].
  apply settle_identity.
Qed.

(** The log grows by one transfer per row, in the order of the rows,
    whatever the outcomes; and the outcome recorded for a transfer is the
    wallet's answer to the history up to that very attempt. *)
Lemma transfer_loop_log (ds : list PaymentDistribution) (s : State) :
  ∃ evs, log (foldl (transfer_step E paymentId) s ds) = (log s ++ evs)%list ∧
         map fst (transfers evs)
         = map (λ d, (pd_amount d, recipient d)) ds ∧
         ∀ (i : nat) a d o,
           evs !! i = Some (EvTransfer a d o) →
           o = createTransfer E (log s ++ take i evs)%list a d.
Proof.
  revert s. induction ds as [|d rest IH]; intros s.
  - exists []. rewrite app_nil_r. split; [done|]. split; [done|].
    intros i a d o Hi. by rewrite lookup_nil in Hi.
  - simpl.
    destruct (IH (transfer_step E paymentId s d))
      as (evs & Hlog & Htr & Hask).
    eexists. split; [|split].
    + rewrite Hlog. simpl. rewrite <- app_assoc. reflexivity.
    + simpl. by rewrite Htr.
    + intros [|[|i]] a d' o Hi; simpl in Hi.
      * injection Hi as <- <- <-. simpl. by rewrite app_nil_r.
      * discriminate Hi.
      * rewrite (Hask i a d' o Hi). simpl. f_equal.
        by rewrite <- app_assoc.
Qed.

End TransferLoop.

Section Settlement.
Context (E : Env) (paymentId : string).

Lemma row_matches_key (d r : PaymentDistribution) :
  WalletService.row_matches paymentId (recipient d) (pd_type d) r = true →
  row_key r = row_key d.
Proof.
  unfold WalletService.row_matches, row_key.
  rewrite !andb_true_iff, !bool_decide_eq_true. by intros [[_ ->] ->].
Qed.

Lemma row_matches_self (d : PaymentDistribution) :
  pd_paymentId d = paymentId →
  WalletService.row_matches paymentId (recipient d) (pd_type d) d = true.
Proof.
  intros Hd. unfold WalletService.row_matches.
  rewrite !andb_true_iff, !bool_decide_eq_true. done.
Qed.

(** An [updateMany] leaves alone every row with another key. *)
Lemma update_other_keys (d : PaymentDistribution)
    (f : PaymentDistribution → PaymentDistribution)
    (l : list PaymentDistribution) :
  Forall (λ r, row_key r ≠ row_key d) l →
  map (λ r, if WalletService.row_matches paymentId (recipient d) (pd_type d) r
            then f r else r) l = l.
Proof.
  induction 1 as [|r l Hr _ IH]; [done|]. simpl. rewrite IH. f_equal.
  destruct (WalletService.row_matches _ _ _ r) eqn:Hm; [|done].
  by apply row_matches_key in Hm.
Qed.

Lemma settle_key (d : PaymentDistribution) (o : option string) :
  row_key (settle d o) = row_key d.
Proof. by destruct o. Qed.

(** With pairwise distinct keys every row of the run ends up settled by the
    outcome of its own transfer. [pre] are the rows that were in the table
    before the run, [settled] those the loop is already done with. *)
Lemma transfer_loop_settles (ds : list PaymentDistribution) :
  ∀ (s : State) (pre settled : list PaymentDistribution),
    distributions s = (pre ++ settled ++ ds)%list →
    Forall (λ d, pd_paymentId d = paymentId) ds →
    NoDup (map row_key ds) →
    Forall (λ r, row_key r ∉ map row_key ds) settled →
    ∃ pre' evs,
      length pre' = length pre ∧
      log (foldl (transfer_step E paymentId) s ds) = (log s ++ evs)%list ∧
      map fst (transfers evs) = map (λ d, (pd_amount d, recipient d)) ds ∧
      distributions (foldl (transfer_step E paymentId) s ds)
      = (pre' ++ settled ++ zip_with settle ds (map snd (transfers evs)))%list.
Proof.
  induction ds as [|d rest IH]; intros s pre settled Hs Hpid Hnd Hset.
  - exists pre, []. simpl. by rewrite !app_nil_r in *.
  - apply Forall_cons in Hpid as [Hd Hrest].
    simpl in Hnd. apply NoDup_cons in Hnd as [Hnotin Hnd].
    set (o := createTransfer E (log s) (pd_amount d) (recipient d)).
    set (upd := λ r, if WalletService.row_matches paymentId (recipient d)
                          (pd_type d) r
                     then settle r o else r).
    assert (Hstep : distributions (transfer_step E paymentId s d)
                    = (map upd pre ++ (settled ++ [settle d o]) ++ rest)%list).
    { unfold transfer_step. simpl. fold o. fold upd. rewrite Hs.
      rewrite !map_app. simpl. rewrite <- !app_assoc. simpl.
      f_equal. f_equal.
      - apply (update_other_keys d (λ r, settle r o)).
        eapply Forall_impl; [exact Hset|]. simpl. intros r Hr Heq.
        apply Hr. rewrite Heq. left.
      - f_equal.
        + unfold upd. by rewrite row_matches_self.
        + apply (update_other_keys d (λ r, settle r o)).
          apply Forall_forall. intros r Hr Heq. apply Hnotin.
          rewrite <- Heq. by apply list_elem_of_fmap_2. }
    destruct (IH (transfer_step E paymentId s d) (map upd pre)
                (settled ++ [settle d o])%list Hstep Hrest Hnd)
      as (pre' & evs & Hlen & Hlog & Htr & Hfin).
    { apply Forall_app. split.
      - eapply Forall_impl; [exact Hset|]. simpl. intros r Hr Hin.
        apply Hr. by right.
      - apply Forall_singleton. by rewrite settle_key. }
    exists pre'.
    exists (EvTransfer (pd_amount d) (recipient d) o
            :: EvDistributionUpdateMany paymentId (recipient d) (pd_type d)
                 (match o with Some _ => completed | None => failed end)
            :: evs).
    split; [by rewrite Hlen, length_map|]. split; [|split].
    + simpl. rewrite Hlog. simpl. by rewrite <- app_assoc.
    + simpl. by rewrite Htr.
    + simpl. rewrite Hfin. by rewrite <- !app_assoc.
Qed.

End Settlement.

(** ** [distributePayment] as a whole *)

Section Distribute.
Context (E : Env) (paymentId : string) (totalAmount : Q).

(** Past its two guards the method is: persist the rows, then loop. *)
Lemma distributePayment_run (s : State) (w : string) (p : Payment) :
  platformWallet s = Some w →
  payments s !! paymentId = Some p →
  WalletService.distributePayment E paymentId totalAmount s
  = (Ok tt, foldl (transfer_step E paymentId)
              (persisted (distribution_rows E paymentId totalAmount s) s)
              (distribution_rows E paymentId totalAmount s)).
Proof.
  intros Hw Hp. unfold WalletService.distributePayment.
  rewrite try_catch_rethrow. run. rewrite Hw, Hp.
  unfold WalletService.createMany. run.
  apply executeTransfers_run.
Qed.

Lemma distributePayment_no_wallet (s : State) :
  platformWallet s = None →
  WalletService.distributePayment E paymentId totalAmount s
  = (Throw (Error "Platform wallet not initialized"), s).
Proof.
  intros Hw. unfold WalletService.distributePayment.
  rewrite try_catch_rethrow. run. by rewrite Hw.
Qed.

Lemma distributePayment_no_payment (s : State) (w : string) :
  platformWallet s = Some w →
  payments s !! paymentId = None →
  WalletService.distributePayment E paymentId totalAmount s
  = (Throw (Error "Payment not found"), s).
Proof.
  intros Hw Hp. unfold WalletService.distributePayment.
  rewrite try_catch_rethrow. run. by rewrite Hw, Hp.
Qed.

End Distribute.

Lemma new_rows_app (s s' : State) (pre rows : list PaymentDistribution) :
  length pre = length (distributions s) →
  distributions s' = (pre ++ rows)%list →
  new_rows s s' = rows.
Proof.
  intros Hlen Hs'. unfold new_rows. rewrite Hs'. by apply drop_app_length'.
Qed.

Lemma new_events_app (s s' : State) (evs : list Event) :
  log s' = (log s ++ evs)%list → new_events s s' = evs.
Proof. intros Hlog. unfold new_events. rewrite Hlog. apply drop_app_length. Qed.

Lemma distribution_rows_keys (E : Env) (paymentId : string) (totalAmount : Q)
    (s : State) :
  map row_key (distribution_rows E paymentId totalAmount s)
  = map stakeholder_key (WalletService.active_stakeholders s).
Proof.
  unfold distribution_rows. rewrite <- list_fmap_compose.
  by apply list_fmap_ext.
Qed.

(** ** Failure isolation *)

Lemma row_matches_where (paymentId : string) (d r : PaymentDistribution)
    (o : option string) :
  (if WalletService.row_matches paymentId (recipient d) (pd_type d) r
   then settle r o else r)
  = settle_where paymentId r (d, o).
Proof.
  unfold WalletService.row_matches, settle_where. simpl.
  destruct (decide (pd_paymentId r = paymentId)) as [H1|H1];
    destruct (decide (recipient r = recipient d)) as [H2|H2];
    destruct (decide (pd_type r = pd_type d)) as [H3|H3];
    rewrite ?(bool_decide_eq_true_2 _ H1), ?(bool_decide_eq_false_2 _ H1),
      ?(bool_decide_eq_true_2 _ H2), ?(bool_decide_eq_false_2 _ H2),
      ?(bool_decide_eq_true_2 _ H3), ?(bool_decide_eq_false_2 _ H3); simpl;
    first [ by rewrite bool_decide_eq_true_2
          | by rewrite bool_decide_eq_false_2 by (by intros (? & ? & ?)) ].
Qed.

(** The table after the loop: every row of the table, old or new, has gone
    through the [updateMany] of every iteration, in order. *)
Lemma transfer_loop_table (E : Env) (paymentId : string)
    (ds : list PaymentDistribution) :
  ∀ s : State,
    ∃ evs,
      log (foldl (transfer_step E paymentId) s ds) = (log s ++ evs)%list ∧
      map fst (transfers evs) = map (λ d, (pd_amount d, recipient d)) ds ∧
      distributions (foldl (transfer_step E paymentId) s ds)
      = map (λ row, foldl (settle_where paymentId) row
                      (zip ds (map snd (transfers evs))))
          (distributions s).
Proof.
  induction ds as [|d rest IH]; intros s.
  - exists []. rewrite app_nil_r. simpl. by rewrite map_id.
  - destruct (IH (transfer_step E paymentId s d)) as (evs & Hlog & Htr & Hfin).
    set (o := createTransfer E (log s) (pd_amount d) (recipient d)) in *.
    exists (EvTransfer (pd_amount d) (recipient d) o
            :: EvDistributionUpdateMany paymentId (recipient d) (pd_type d)
                 (match o with Some _ => completed | None => failed end)
            :: evs).
    split; [|split].
    + simpl. rewrite Hlog. simpl. by rewrite <- app_assoc.
    + simpl. by rewrite Htr.
    + simpl. rewrite Hfin. simpl. fold o. rewrite map_map.
      apply map_ext. intros row. by rewrite row_matches_where.
Qed.

(** C6. What one run of [distributePayment] (platform wallet initialised,
    payment present) does with transfer failures. It never throws and
    attempts one transfer per active stakeholder, in their order, whatever
    the outcomes of the others: a failure is absorbed by its own iteration.
    But an iteration does not settle its own row: it rewrites every row of
    the table that has the payment id, recipient and type of its
    distribution. The table after the run is the table before it followed by
    the new pending rows, each row put through the updates of all iterations
    in order. So when two active stakeholders share wallet and type, the
    rows of both carry the status of the later transfer: a row whose own
    transfer succeeded ends failed when the later one fails. *)
Theorem distributePayment_settles_by_key (E : Env) (paymentId : string)
    (totalAmount : Q) (s : State) (w : string) (p : Payment) :
  platformWallet s = Some w →
  payments s !! paymentId = Some p →
  let r := WalletService.distributePayment E paymentId totalAmount s in
  let rows := distribution_rows E paymentId totalAmount s in
  let attempts := transfers (new_events s (state_of r)) in
  result_of r = Ok tt ∧
  map fst attempts = map (λ d, (pd_amount d, recipient d)) rows ∧
  distributions (state_of r)
  = map (λ row, foldl (settle_where paymentId) row
                  (zip rows (map snd attempts)))
      (distributions s ++ rows)%list.
Proof.
  intros Hw Hp.
  rewrite (distributePayment_run E paymentId totalAmount s w p Hw Hp).
  set (rows := distribution_rows E paymentId totalAmount s).
  destruct (transfer_loop_table E paymentId rows (persisted rows s))
    as (evs & Hlog & Htr & Hfin).
  simpl in *.
  assert (Hev : new_events s
                  (foldl (transfer_step E paymentId) (persisted rows s) rows)
                = EvDistributionCreateMany rows :: evs).
  { apply new_events_app. rewrite Hlog. by rewrite <- app_assoc. }
  rewrite Hev. simpl. by rewrite Htr, Hfin.
Qed.

(** At two active stakeholders that pay into one wallet under one type: the
    first transfer succeeds, the second fails, and both new rows end failed
    with the hash of the first transfer. *)
Lemma distributePayment_settles_by_key_witness :
  let s' := state_of (WalletService.distributePayment demoEnv "p1" 25
                        sharedWalletState) in
  map snd (transfers (new_events sharedWalletState s'))
  = [Some "0xw-lab"; None] ∧
  map (λ d, (recipient d, pd_status d, txHash d)) (distributions s')
  = [("w-lab", failed, Some "0xw-lab"); ("w-lab", failed, Some "0xw-lab")].
Proof.
  destruct (distributePayment_settles_by_key demoEnv "p1" 25 sharedWalletState
              "platform-wallet" demoPayment eq_refl eq_refl)
    as (_ & _ & Htable).
  simpl. split; [reflexivity|]. rewrite Htable. reflexivity.
Defined.

(** With pairwise distinct (wallet, type) pairs among the active
    stakeholders the shared [where] clause cannot be seen on the rows of the
    run: each new row is settled by its own transfer, completed with the
    transaction hash when it succeeded, failed when it threw. *)
Lemma distributePayment_failure_isolation (E : Env) (paymentId : string)
    (totalAmount : Q) (s : State) (w : string) (p : Payment) :
  platformWallet s = Some w →
  payments s !! paymentId = Some p →
  NoDup (map stakeholder_key (WalletService.active_stakeholders s)) →
  settled_by_own_transfer E paymentId totalAmount s.
Proof.
  intros Hw Hp Hnd. unfold settled_by_own_transfer.
  rewrite (distributePayment_run E paymentId totalAmount s w p Hw Hp).
  set (rows := distribution_rows E paymentId totalAmount s).
  destruct (transfer_loop_settles E paymentId rows (persisted rows s)
              (distributions s) [])
    as (pre' & evs & Hlen & Hlog & Htr & Hfin).
  - done.
  - apply Forall_forall. intros d Hd. unfold rows, distribution_rows in Hd.
    apply list_elem_of_fmap in Hd as (sh & -> & _). done.
  - unfold rows. by rewrite distribution_rows_keys.
  - constructor.
  - simpl in *.
    assert (Hev : new_events s
                    (foldl (transfer_step E paymentId) (persisted rows s) rows)
                  = EvDistributionCreateMany rows :: evs).
    { apply new_events_app. rewrite Hlog. simpl. by rewrite <- app_assoc. }
    rewrite Hev. simpl. split; [done|]. split; [done|].
    by apply (new_rows_app _ _ pre').
Qed.

Lemma distributePayment_failure_isolation_witness :
  settled_by_own_transfer demoEnv "p1" 25 demoStateWallet.
Proof.
  apply (distributePayment_failure_isolation demoEnv "p1" 25 demoStateWallet
           "platform-wallet" demoPayment).
  - reflexivity.
  - reflexivity.
  - apply (bool_decide_unpack _). vm_compute. exact I.
Defined.

(** What the run of the witness leaves behind: the second transfer failed,
    the first and the third went through. *)
Example distributePayment_demo_rows :
  map (λ d, (recipient d, pd_status d, txHash d))
    (distributions
       (state_of (WalletService.distributePayment demoEnv "p1" 25
                    demoStateWallet)))
  = [ ("w-platform", completed, Some "0xw-platform");
      ("w-data", failed, None);
      ("w-research", completed, Some "0xw-research") ].
Proof. vm_compute. reflexivity. Qed.

(** Settlement of each row by its own transfer fails when two active
    stakeholders share wallet and type: [updateMany] addresses both rows at
    once. Here the first transfer (15 to "w-lab") succeeds and the second
    (10 to "w-lab") fails, and both rows end up failed. *)
Lemma failure_isolation_counterexample :
  ¬ settled_by_own_transfer demoEnv "p1" 25 sharedWalletState.
Proof.
  intros (_ & _ & Hrows). vm_compute in Hrows. discriminate Hrows.
Qed.

Example shared_wallet_rows :
  let s' := state_of (WalletService.distributePayment demoEnv "p1" 25
                        sharedWalletState) in
  map snd (transfers (new_events sharedWalletState s'))
  = [Some "0xw-lab"; None] ∧
  map (λ d, (pd_status d, txHash d)) (new_rows sharedWalletState s')
  = [(failed, Some "0xw-lab"); (failed, Some "0xw-lab")].
Proof. vm_compute. split; reflexivity. Qed.

(** ** Record before transfer *)



(** ** Repeated distribution *)

(** C2 (as amended). [distributePayment] does not look at the rows already
    in the table: every run that passes its two guards (platform wallet
    initialised, payment present) appends one row per active stakeholder,
    keeps the rows that were there, and attempts one transfer per active
    stakeholder, whether or not the payment was distributed before. *)
Theorem distributePayment_repeats (E : Env) (paymentId : string)
    (totalAmount : Q) (s : State) (w : string) (p : Payment) :
  platformWallet s = Some w →
  payments s !! paymentId = Some p →
  let rows := distribution_rows E paymentId totalAmount s in
  let r := WalletService.distributePayment E paymentId totalAmount s in
  result_of r = Ok tt ∧
  map row_identity (distributions (state_of r))
  = map row_identity (distributions s ++ rows)%list ∧
  length (distributions (state_of r))
  = (length (distributions s)
     + length (WalletService.active_stakeholders s))%nat ∧
  map fst (transfers (new_events s (state_of r)))
  = map (λ d, (pd_amount d, recipient d)) rows.
Proof.
  intros Hw Hp rows r. unfold r.
  rewrite (distributePayment_run E paymentId totalAmount s w p Hw Hp).
  fold rows. simpl.
  pose proof (transfer_loop_identity E paymentId rows (persisted rows s))
    as Hid.
  simpl in Hid. split; [done|]. split; [done|]. split.
  - apply (f_equal length) in Hid. rewrite !length_map, length_app in Hid.
    rewrite Hid. unfold rows, distribution_rows. by rewrite length_map.
  - destruct (transfer_loop_log E paymentId rows (persisted rows s))
      as (evs & Hlog & Htr & _).
    erewrite new_events_app.
    2:{ rewrite Hlog. simpl. rewrite <- app_assoc. reflexivity. }
    done.
Qed.

Lemma distributePayment_repeats_witness :
  distributions_of_payment distributedState "p1" ≠ [] ∧
  length (distributions
            (state_of (WalletService.distributePayment demoEnv "p1" 25
                         distributedState)))
  = (length (distributions distributedState)
     + length (WalletService.active_stakeholders distributedState))%nat.
Proof.
  split; [vm_compute; discriminate|].
  apply (distributePayment_repeats demoEnv "p1" 25 distributedState
           "platform-wallet" demoPayment); reflexivity.
Defined.

(** C2 (as stated) fails: a second run for payment "p1", whose three rows
    are already in the table, adds three more rows and transfers three more
    times. *)
Lemma distributes_at_most_once_counterexample :
  ¬ distributes_at_most_once demoEnv "p1" 25 distributedState.
Proof.
  intros H. destruct H as [Hrows _]; [vm_compute; discriminate|].
  vm_compute in Hrows. discriminate Hrows.
Qed.

Example second_run_doubles :
  let s' := state_of (WalletService.distributePayment demoEnv "p1" 25
                        distributedState) in
  length (distributions distributedState) = 3%nat ∧
  length (distributions s') = 6%nat ∧
  count_transfers (new_events distributedState s') = 3%nat.
Proof. vm_compute. repeat split. Qed.

(** ** The rows of one run *)

Lemma new_rows_identity (E : Env) (paymentId : string) (totalAmount : Q)
    (s : State) (w : string) (p : Payment) :
  platformWallet s = Some w →
  payments s !! paymentId = Some p →
  map row_identity
    (new_rows s
       (state_of (WalletService.distributePayment E paymentId totalAmount s)))
  = map row_identity (distribution_rows E paymentId totalAmount s).
Proof.
  intros Hw Hp.
  rewrite (distributePayment_run E paymentId totalAmount s w p Hw Hp).
  simpl. unfold new_rows.
  pose proof (transfer_loop_identity E paymentId
                (distribution_rows E paymentId totalAmount s)
                (persisted (distribution_rows E paymentId totalAmount s) s))
    as Hid.
  simpl in Hid.
  rewrite <- skipn_map, Hid, map_app.
  apply drop_app_length'. by rewrite length_map.
Qed.

(** ** The webhook *)

Lemma distributePayment_frame (E : Env) (paymentId : string) (totalAmount : Q)
    (s : State) :
  let s' :=
    state_of (WalletService.distributePayment E paymentId totalAmount s) in
  payments s' = payments s ∧ analyses s' = analyses s.
Proof.
  destruct (platformWallet s) as [w|] eqn:Hw.
  - destruct (payments s !! paymentId) as [p|] eqn:Hp.
    + rewrite (distributePayment_run E paymentId totalAmount s w p Hw Hp).
      simpl.
      destruct (transfer_loop_frame E paymentId
                  (distribution_rows E paymentId totalAmount s)
                  (persisted (distribution_rows E paymentId totalAmount s) s))
        as (? & ? & _).
      done.
    + by rewrite (distributePayment_no_payment E paymentId totalAmount s w).
  - by rewrite distributePayment_no_wallet.
Qed.

Lemma analysis_of_payment_lookup (s : State) (paymentId aid : string)
    (a : Analysis) :
  analysis_of_payment s paymentId = Some (aid, a) →
  analyses s !! aid = Some a.
Proof.
  unfold analysis_of_payment. intros Hfind.
  apply find_some in Hfind as [Hin _].
  apply list_elem_of_In in Hin. by apply elem_of_map_to_list in Hin.
Qed.

Lemma processPaymentCompletion_run (paymentId : string) (s : State) :
  PaymentService.processPaymentCompletion paymentId s
  = (Ok tt, after_completion_hook paymentId s).
Proof.
  unfold PaymentService.processPaymentCompletion, after_completion_hook.
  rewrite try_catch_rethrow. run.
  destruct (analysis_of_payment s paymentId) as [[aid a]|] eqn:Hfind; [|done].
  unfold analysis_update_status. run.
  by rewrite (analysis_of_payment_lookup s paymentId aid a Hfind).
Qed.

(** The "completed" branch on an existing payment: update, hook,
    distribution, with no look at the payment's current status. *)
Lemma handlePaymentWebhook_completed_run (E : Env) (now : Z) (id h : string)
    (signature : option string) (s : State) (p : Payment) :
  payments s !! id = Some p →
  PaymentService.handlePaymentWebhook E now
    (mkPayload (JString id) (JString "completed") (JString h)) signature s
  = WalletService.distributePayment E id
      (WalletService.toNumber E (pay_amount p))
      (after_completion_hook id
         (after_payment_update id (completed_payment h now p) s)).
Proof.
  intros Hp. unfold PaymentService.handlePaymentWebhook.
  rewrite try_catch_rethrow. simpl.
  erewrite bind_Ok.
  2:{ unfold payment_update. run. rewrite Hp. reflexivity. }
  simpl. erewrite bind_Ok by apply processPaymentCompletion_run.
  reflexivity.
Qed.

Lemma after_completion_hook_payments (id : string) (s : State) :
  payments (after_completion_hook id s) = payments s.
Proof.
  unfold after_completion_hook.
  by destruct (analysis_of_payment s id) as [[aid a]|].
Qed.

(** C1 (as amended). For an existing payment in any status, each delivery of
    a "completed" notification carrying a transaction hash performs the
    update, the completion hook and the distribution call, in this order and
    with no look at the current status. After the first delivery the payment
    is COMPLETED with the payload's hash and the time of that delivery; after
    a second delivery of the same payload status and hash are the same and
    the completion time is that of the second delivery. *)
Theorem webhook_completed_every_delivery (E : Env) (t1 t2 : Z) (id h : string)
    (signature : option string) (s : State) (p : Payment) :
  payments s !! id = Some p →
  let payload := mkPayload (JString id) (JString "completed") (JString h) in
  let r1 := PaymentService.handlePaymentWebhook E t1 payload signature s in
  let r2 :=
    PaymentService.handlePaymentWebhook E t2 payload signature (state_of r1) in
  r1 = WalletService.distributePayment E id
         (WalletService.toNumber E (pay_amount p))
         (after_completion_hook id
            (after_payment_update id (completed_payment h t1 p) s)) ∧
  payments (state_of r1) !! id = Some (completed_payment h t1 p) ∧
  r2 = WalletService.distributePayment E id
         (WalletService.toNumber E (pay_amount p))
         (after_completion_hook id
            (after_payment_update id (completed_payment h t2 p)
               (state_of r1))) ∧
  payments (state_of r2) !! id = Some (completed_payment h t2 p).
Proof.
  intros Hp payload r1 r2.
  assert (H1 : r1 = WalletService.distributePayment E id
                      (WalletService.toNumber E (pay_amount p))
                      (after_completion_hook id
                         (after_payment_update id (completed_payment h t1 p)
                            s)))
    by by apply handlePaymentWebhook_completed_run.
  assert (Hp1 : payments (state_of r1) !! id = Some (completed_payment h t1 p)).
  { rewrite H1.
    destruct (distributePayment_frame E id
                (WalletService.toNumber E (pay_amount p))
                (after_completion_hook id
                   (after_payment_update id (completed_payment h t1 p) s)))
      as [-> _].
    rewrite after_completion_hook_payments. simpl. apply lookup_insert_eq. }
  assert (H2 : r2 = WalletService.distributePayment E id
                      (WalletService.toNumber E (pay_amount p))
                      (after_completion_hook id
                         (after_payment_update id (completed_payment h t2 p)
                            (state_of r1))))
    by exact (handlePaymentWebhook_completed_run E t2 id h signature
                (state_of r1) _ Hp1).
  split; [exact H1|]. split; [exact Hp1|]. split; [exact H2|].
  rewrite H2.
  destruct (distributePayment_frame E id
              (WalletService.toNumber E (pay_amount p))
              (after_completion_hook id
                 (after_payment_update id (completed_payment h t2 p)
                    (state_of r1))))
    as [-> _].
  rewrite after_completion_hook_payments. simpl. apply lookup_insert_eq.
Qed.

Lemma webhook_completed_every_delivery_witness :
  payments
    (state_of
       (PaymentService.handlePaymentWebhook demoEnv 2000 demoPayload None
          (state_of
             (PaymentService.handlePaymentWebhook demoEnv 1000 demoPayload
                None demoState)))) !! "p1"
  = Some (completed_payment "0xabc" 2000 demoPayment).
Proof.
  apply (webhook_completed_every_delivery demoEnv 1000 2000 "p1" "0xabc" None
           demoState demoPayment).
  reflexivity.
Defined.

(** C1 (as stated) fails: the second delivery of the same notification
    writes the payment row again (the completion time moves from 1000 to
    2000) and runs the completion hook again. *)
Lemma second_delivery_counterexample :
  ¬ second_delivery_is_noop demoEnv 1000 2000 demoPayload None demoState.
Proof.
  intros [_ Hlog]. vm_compute in Hlog. discriminate Hlog.
Qed.

Example second_delivery_trace :
  let s1 :=
    state_of (PaymentService.handlePaymentWebhook demoEnv 1000 demoPayload
                None demoState) in
  let s2 :=
    state_of (PaymentService.handlePaymentWebhook demoEnv 2000 demoPayload
                None s1) in
  pay_completedAt <$> payments s1 !! "p1" = Some (Some 1000%Z) ∧
  pay_completedAt <$> payments s2 !! "p1" = Some (Some 2000%Z) ∧
  log s1 = [ EvPaymentUpdate "p1"; EvAnalysisUpdate "a1" (Some A_PROCESSING) ] ∧
  log s2 = [ EvPaymentUpdate "p1"; EvAnalysisUpdate "a1" (Some A_PROCESSING);
             EvPaymentUpdate "p1"; EvAnalysisUpdate "a1" (Some A_PROCESSING) ].
Proof. vm_compute. repeat split. Qed.

(** C3 (the code at the failing input). The webhook route answers the same
    whatever the signature headers are, and a well-formed "completed"
    notification that carries no signature at all is processed: against the
    state of the running example the payment becomes COMPLETED and the
    analysis PROCESSING, and the answer is the 500 of the uninitialised
    platform wallet, not an authorisation failure. *)
Theorem webhook_unsigned_is_processed (E : Env) (now : Z) :
  (∀ x y x' y' payload s,
     Routes.webhook E now x y payload s = Routes.webhook E now x' y' payload s) ∧
  let r := Routes.webhook E now None None demoPayload demoState in
  result_of r
  = Ok (mkResponse 500
          (BodyException (Error "Platform wallet not initialized"))) ∧
  payments (state_of r) !! "p1"
  = Some (completed_payment "0xabc" now demoPayment) ∧
  analyses (state_of r) !! "a1"
  = Some (with_status A_PROCESSING demoAnalysis).
Proof.
  split; [reflexivity|].
  unfold Routes.webhook, asyncHandler.
  erewrite try_catch_Throw.
  2:{ erewrite bind_Throw; [reflexivity|].
      rewrite (handlePaymentWebhook_completed_run E now "p1" "0xabc" _
                 demoState demoPayment) by reflexivity.
      apply distributePayment_no_wallet.
      unfold after_completion_hook.
      by destruct (analysis_of_payment _ _) as [[??]|]. }
  vm_compute. repeat split.
Qed.

(** With an initialised platform wallet the same unsigned notification also
    pays out. *)
Example webhook_unsigned_pays_out :
  let r := Routes.webhook demoEnv 1000 None None demoPayload demoStateWallet in
  result_of r = Ok (mkResponse 200 BodyReceived) ∧
  map (λ d, (recipient d, pd_status d)) (distributions (state_of r))
  = [ ("w-platform", completed); ("w-data", failed);
      ("w-research", completed) ].
Proof. vm_compute. repeat split. Qed.

(** ** The pricing table against the advertised categories *)

Lemma analysis_types_unpriced (type : string) :
  type ∈ analysis_types → pricing_lookup type = PriceUndefined.
Proof.
  unfold analysis_types. rewrite !elem_of_cons, elem_of_nil.
  intros [->|[->|[->|[->|[->|[->|[]]]]]]]; reflexivity.
Qed.

(** C4 (the code at the failing inputs). For each of the six categories the
    validation schema admits and the types endpoint advertises with a price
    (TECHNICAL_ANALYSIS at 25), [createAnalysisRequest] answers 400 "Invalid
    analysis type" and writes nothing: the pricing table is keyed by the
    camel-case names, the request carries the upper-case ones. *)
Theorem createAnalysisRequest_rejects_categories (E : Env)
    (userId type : string) (symbol : option string) (s : State) :
  userId ≠ "" →
  type ∈ analysis_types →
  AnalysisController.createAnalysisRequest E (Some userId) type symbol s
  = (Ok (mkResponse 400 (BodyError "Invalid analysis type")), s) ∧
  (∃ price, assoc type getAnalysisTypes = Some (Some price)) ∧
  assoc "TECHNICAL_ANALYSIS" getAnalysisTypes = Some (Some 25%Q).
Proof.
  intros Hu Htype. split; [|split; [|reflexivity]].
  - unfold AnalysisController.createAnalysisRequest.
    apply try_catch_Ok. simpl.
    rewrite bool_decide_eq_false_2 by done. simpl.
    by rewrite analysis_types_unpriced.
  - revert Htype. unfold analysis_types.
    rewrite !elem_of_cons, elem_of_nil.
    intros [->|[->|[->|[->|[->|[->|[]]]]]]]; eexists; reflexivity.
Qed.

Lemma createAnalysisRequest_rejects_categories_witness :
  AnalysisController.createAnalysisRequest demoEnv (Some "alice")
    "TECHNICAL_ANALYSIS" (Some "BTC") demoState
  = (Ok (mkResponse 400 (BodyError "Invalid analysis type")), demoState).
Proof.
  apply (createAnalysisRequest_rejects_categories demoEnv "alice"
           "TECHNICAL_ANALYSIS" (Some "BTC") demoState).
  - discriminate.
  - apply (bool_decide_unpack _). vm_compute. exact I.
Defined.

(** The same through the router, validation included. *)
Example create_analysis_route_rejects :
  Routes.create_analysis demoEnv (Authenticated "alice") "TECHNICAL_ANALYSIS"
    (Some "BTC") demoState
  = (Ok (mkResponse 400 (BodyError "Invalid analysis type")), demoState).
Proof. reflexivity. Qed.

(** A key of the table itself passes the price check (whether the row is
    then accepted is up to the schema of the [type] column). *)
Example createAnalysisRequest_table_key :
  pricing_lookup "technicalAnalysis" = PriceNumber 25 ∧
  result_of (AnalysisController.createAnalysisRequest demoEnv (Some "alice")
               "technicalAnalysis" (Some "BTC") demoState)
  = Ok (mkResponse 200 (BodyCreated "0" "0" 25)).
Proof. vm_compute. split; reflexivity. Qed.

(** ** Binary64 rounding *)

Lemma nearest_even_spec (n d : Z) :
  (0 < d)%Z → (- d <= 2 * (nearest_even n d * d - n) <= d)%Z.
Proof.
  intros Hd. unfold nearest_even.
  pose proof (Z.div_mod n d ltac:(lia)) as Hdm.
  pose proof (Z.mod_pos_bound n d Hd) as Hr.
  destruct (Z.compare_spec (2 * (n mod d)) d) as [H|H|H];
    [destruct (Z.even (n / d))| |]; nia.
Qed.

Lemma floor_log2_spec (n d : Z) :
  (0 < n)%Z → (0 < d)%Z →
  (0 <= floor_log2 n d → 2 ^ floor_log2 n d * d <= n)%Z ∧
  (floor_log2 n d < 0 → d <= n * 2 ^ (- floor_log2 n d))%Z.
Proof.
  intros Hn Hd. unfold floor_log2.
  set (e0 := (Z.log2 n - Z.log2 d)%Z).
  destruct (Z.log2_spec n Hn) as [Hn1 Hn2].
  destruct (Z.log2_spec d Hd) as [Hd1 Hd2].
  pose proof (Z.log2_nonneg n) as Hln. pose proof (Z.log2_nonneg d) as Hld.
  destruct (0 <=? e0)%Z eqn:He0.
  - apply Z.leb_le in He0.
    destruct (2 ^ e0 * d <=? n)%Z eqn:Ht.
    + apply Z.leb_le in Ht. split; [done|lia].
    + split; intros Hb.
      * assert (H : (2 ^ (e0 - 1) * 2 ^ Z.succ (Z.log2 d) = 2 ^ Z.log2 n)%Z).
        { rewrite <- Z.pow_add_r by lia. f_equal. unfold e0. lia. }
        assert (0 < 2 ^ (e0 - 1))%Z by (apply Z.pow_pos_nonneg; lia).
        nia.
      * assert (He : e0 = 0%Z) by lia. rewrite He.
        change (2 ^ (- (0 - 1)))%Z with 2%Z.
        assert (Hl : Z.log2 n = Z.log2 d) by (unfold e0 in He; lia).
        rewrite Z.pow_succ_r in Hd2 by lia. rewrite Hl in Hn1. lia.
  - apply Z.leb_gt in He0.
    destruct (d <=? n * 2 ^ (- e0))%Z eqn:Ht.
    + apply Z.leb_le in Ht. split; [lia|done].
    + split; [lia|]. intros _.
      assert (H : (2 ^ Z.log2 n * 2 ^ (- (e0 - 1)) = 2 ^ Z.succ (Z.log2 d))%Z).
      { rewrite <- Z.pow_add_r by lia. f_equal. unfold e0. lia. }
      assert (0 < 2 ^ (- (e0 - 1)))%Z by (apply Z.pow_pos_nonneg; lia).
      nia.
Qed.

(** A value [x = N * t] rounded to [m * D * t], where [m] is the integer
    nearest to [N / D] and [N / D] is at least [2^52]. *)
Lemma scaled_round_error (m N D : Z) (t x r : Q) :
  (0 < t)%Q →
  (x == inject_Z N * t)%Q →
  (r == inject_Z (m * D) * t)%Q →
  (- D <= 2 * (m * D - N) <= D)%Z →
  (2 ^ 52 * D <= N)%Z →
  (Qabs (r - x) <= unit_roundoff * x)%Q.
Proof.
  intros Ht Hx Hr [Hlo Hhi] Hbig.
  assert (Hlo' : (- inject_Z D
                  <= 2 * (inject_Z m * inject_Z D - inject_Z N))%Q).
  { unfold Qle, Qminus, Qplus, Qmult, Qopp, inject_Z. cbn [Qnum Qden]. lia. }
  assert (Hhi' : (2 * (inject_Z m * inject_Z D - inject_Z N)
                  <= inject_Z D)%Q).
  { unfold Qle, Qminus, Qplus, Qmult, Qopp, inject_Z. cbn [Qnum Qden]. lia. }
  assert (Hbig' : ((4503599627370496 # 1) * inject_Z D <= inject_Z N)%Q).
  { unfold Qle, Qmult, inject_Z. cbn [Qnum Qden].
    change (2 ^ 52)%Z with 4503599627370496%Z in Hbig. lia. }
  rewrite Hx, Hr, inject_Z_mult.
  remember (inject_Z m) as qm eqn:Em. remember (inject_Z N) as qN eqn:EN.
  remember (inject_Z D) as qD eqn:ED. clear Em EN ED Hx Hr.
  apply Qabs_Qle_condition.
  change unit_roundoff with (1 # 9007199254740992)%Q.
  assert (H1 : ((qm * qD - qN) * t <= (1 # 9007199254740992) * qN * t)%Q)
    by (apply Qmult_le_compat_r; lra).
  assert (H2 : (- ((1 # 9007199254740992) * qN) * t <= (qm * qD - qN) * t)%Q)
    by (apply Qmult_le_compat_r; lra).
  split; lra.
Qed.

(** With 53 significant bits a rounding moves a value by at most the
    fraction [2^-53] of it. *)
Lemma round_to_normal (n d : Z) :
  (0 < n)%Z → (0 < d)%Z →
  (Qabs (round_to (floor_log2 n d - 52) n d - (n # Z.to_pos d))
   <= unit_roundoff * (n # Z.to_pos d))%Q.
Proof.
  intros Hn Hd. unfold round_to.
  destruct (floor_log2_spec n d Hn Hd) as [Hb1 Hb2].
  set (b := floor_log2 n d) in *.
  destruct (0 <=? b - 52)%Z eqn:He.
  - apply Z.leb_le in He.
    assert (Hp : (0 < 2 ^ (b - 52))%Z) by (apply Z.pow_pos_nonneg; lia).
    apply (scaled_round_error (nearest_even n (d * 2 ^ (b - 52))) n
             (d * 2 ^ (b - 52)) (1 # Z.to_pos d)).
    + reflexivity.
    + unfold Qeq. simpl. lia.
    + unfold Qeq. simpl. rewrite Pos.mul_1_l, Z2Pos.id by lia. ring.
    + apply nearest_even_spec. lia.
    + assert (Hpow : (2 ^ b = 2 ^ 52 * 2 ^ (b - 52))%Z).
      { rewrite <- Z.pow_add_r by lia. f_equal. lia. }
      specialize (Hb1 ltac:(lia)). rewrite Hpow in Hb1. lia.
  - apply Z.leb_gt in He.
    assert (Hp : (0 < 2 ^ (- (b - 52)))%Z) by (apply Z.pow_pos_nonneg; lia).
    apply (scaled_round_error (nearest_even (n * 2 ^ (- (b - 52))) d)
             (n * 2 ^ (- (b - 52))) d
             (1 # Z.to_pos (d * 2 ^ (- (b - 52))))).
    + reflexivity.
    + unfold Qeq. simpl. rewrite Pos.mul_1_l, !Z2Pos.id by lia. ring.
    + unfold Qeq. simpl. rewrite Pos.mul_1_l, !Z2Pos.id by lia. ring.
    + apply nearest_even_spec. lia.
    + destruct (Z_le_gt_dec 0 b) as [Hb|Hb].
      * assert (Hpow : (2 ^ 52 = 2 ^ b * 2 ^ (- (b - 52)))%Z).
        { rewrite <- Z.pow_add_r by lia. f_equal. lia. }
        specialize (Hb1 Hb). rewrite Hpow. nia.
      * assert (Hpow : (2 ^ (- (b - 52)) = 2 ^ 52 * 2 ^ (- b))%Z).
        { rewrite <- Z.pow_add_r by lia. f_equal. lia. }
        specialize (Hb2 ltac:(lia)). rewrite Hpow. nia.
Qed.

(** Rounding to the grid [2^e], [e < 0], moves a value by at most half a
    grid step. *)
Lemma round_to_grid (e n d : Z) :
  (0 < d)%Z → (e < 0)%Z →
  (Qabs (round_to e n d - (n # Z.to_pos d)) <= 1 # Z.to_pos (2 * 2 ^ (- e)))%Q.
Proof.
  intros Hd He. unfold round_to.
  destruct (0 <=? e)%Z eqn:Hsign; [apply Z.leb_le in Hsign; lia|].
  assert (HP : (0 < 2 ^ (- e))%Z) by (apply Z.pow_pos_nonneg; lia).
  generalize dependent (2 ^ (- e))%Z. intros P HP.
  pose proof (nearest_even_spec (n * P) d Hd) as [Hlo Hhi].
  generalize dependent (nearest_even (n * P) d). intros m Hlo Hhi.
  apply Qabs_Qle_condition.
  unfold Qle, Qminus, Qplus, Qopp. cbn [Qnum Qden].
  rewrite !Pos2Z.inj_mul, !Z2Pos.id by lia.
  split; nia.
Qed.

Lemma round_pos_error (n d : Z) :
  (0 < n)%Z → (0 < d)%Z →
  (Qabs (round_pos n d - (n # Z.to_pos d))
   <= unit_roundoff * (n # Z.to_pos d) + half_subnormal)%Q.
Proof.
  intros Hn Hd. unfold round_pos.
  destruct (Z.max_spec (floor_log2 n d - 52) (-1074)) as [[_ ->]|[_ ->]].
  - pose proof (round_to_grid (-1074) n d Hd ltac:(lia)) as H.
    assert (Hx : (0 <= unit_roundoff * (n # Z.to_pos d))%Q).
    { apply Qmult_le_0_compat; [discriminate|]. unfold Qle. simpl. lia. }
    assert (Hh : ((1 # Z.to_pos (2 * 2 ^ (- -1074))) == half_subnormal)%Q)
      by reflexivity.
    rewrite Hh in H. lra.
  - pose proof (round_to_normal n d Hn Hd) as H.
    assert (Hh : (0 <= half_subnormal)%Q) by discriminate.
    lra.
Qed.

(** Round-to-nearest on binary64, subnormal numbers included: a rounding
    moves a value by at most the fraction [2^-53] of its magnitude plus half
    the spacing [2^-1074] of the subnormal numbers. *)
Lemma binary64_round_error (x : Q) :
  (Qabs (binary64_round x - x)
   <= unit_roundoff * Qabs x + half_subnormal)%Q.
Proof.
  unfold binary64_round. rewrite Qred_correct.
  destruct x as [n d]. simpl Qnum. simpl Qden.
  destruct n as [|n|n].
  - discriminate.
  - pose proof (round_pos_error (Z.pos n) (Z.pos d) ltac:(lia) ltac:(lia)) as H.
    simpl Z.to_pos in H. rewrite (Qabs_pos (Z.pos n # d)); [exact H|].
    unfold Qle. simpl. lia.
  - pose proof (round_pos_error (Z.pos n) (Z.pos d) ltac:(lia) ltac:(lia)) as H.
    simpl Z.to_pos in H. simpl Z.opp.
    assert (Hneg : (Z.neg n # d == - (Z.pos n # d))%Q) by reflexivity.
    rewrite Hneg, Qabs_opp.
    rewrite (Qabs_pos (Z.pos n # d)) by (unfold Qle; simpl; lia).
    assert (Hsub : (- round_pos (Z.pos n) (Z.pos d) - - (Z.pos n # d)
                    == - (round_pos (Z.pos n) (Z.pos d) - (Z.pos n # d)))%Q)
      by ring.
    rewrite Hsub, Qabs_opp. exact H.
Qed.

Lemma nearest_even_le (n d m : Z) :
  (0 < d)%Z → (n <= m * d)%Z → (nearest_even n d <= m)%Z.
Proof.
  intros Hd Hn. unfold nearest_even.
  pose proof (Z.div_mod n d ltac:(lia)) as Hdm.
  pose proof (Z.mod_pos_bound n d Hd) as Hr.
  assert (Hq : (n / d <= m)%Z) by nia.
  destruct (Z.compare_spec (2 * (n mod d)) d) as [H|H|H];
    [destruct (Z.even (n / d))| |]; nia.
Qed.

Lemma nearest_even_nonneg (n d : Z) :
  (0 < d)%Z → (0 <= n)%Z → (0 <= nearest_even n d)%Z.
Proof.
  intros Hd Hn. unfold nearest_even.
  pose proof (Z.div_pos n d Hn Hd) as Hq.
  destruct (2 * (n mod d) ?= d)%Z; [destruct (Z.even (n / d))| |]; lia.
Qed.

Lemma round_pos_nonneg (n d : Z) :
  (0 < n)%Z → (0 < d)%Z → (0 <= round_pos n d)%Q.
Proof.
  intros Hn Hd. unfold round_pos, round_to.
  generalize (Z.max (floor_log2 n d - 52) (-1074)). intros e.
  destruct (0 <=? e)%Z eqn:He.
  - apply Z.leb_le in He.
    assert (0 < 2 ^ e)%Z by (apply Z.pow_pos_nonneg; lia).
    pose proof (nearest_even_nonneg n (d * 2 ^ e) ltac:(nia) ltac:(lia)).
    unfold Qle, inject_Z. cbn [Qnum Qden]. nia.
  - apply Z.leb_gt in He.
    assert (0 < 2 ^ (- e))%Z by (apply Z.pow_pos_nonneg; lia).
    pose proof (nearest_even_nonneg (n * 2 ^ (- e)) d Hd ltac:(nia)).
    unfold Qle. cbn [Qnum Qden]. lia.
Qed.

(** Rounding does not cross an integer below [2^52]: such an integer is
    itself a number of the format. *)
Lemma round_pos_le (n d k : Z) :
  (0 < n)%Z → (0 < d)%Z → (k < 2 ^ 52)%Z → (n <= k * d)%Z →
  (round_pos n d <= inject_Z k)%Q.
Proof.
  intros Hn Hd Hk Hle. unfold round_pos, round_to.
  destruct (floor_log2_spec n d Hn Hd) as [Hb1 _].
  assert (Hb : (floor_log2 n d < 52)%Z).
  { destruct (Z_lt_ge_dec (floor_log2 n d) 52) as [|Hge]; [done|].
    specialize (Hb1 ltac:(lia)).
    assert (2 ^ 52 <= 2 ^ floor_log2 n d)%Z
      by (apply Z.pow_le_mono_r; lia).
    nia. }
  set (e := Z.max (floor_log2 n d - 52) (-1074)).
  assert (He : (e < 0)%Z) by lia.
  destruct (0 <=? e)%Z eqn:Hsign; [apply Z.leb_le in Hsign; lia|].
  assert (HP : (0 < 2 ^ (- e))%Z) by (apply Z.pow_pos_nonneg; lia).
  generalize dependent (2 ^ (- e))%Z. intros P HP.
  pose proof (nearest_even_le (n * P) d (k * P) Hd ltac:(nia)) as Hm.
  unfold Qle, inject_Z. cbn [Qnum Qden]. rewrite Z2Pos.id by lia. lia.
Qed.

Lemma binary64_round_range (x : Q) (k : Z) :
  (k < 2 ^ 52)%Z → (0 <= x)%Q → (x <= inject_Z k)%Q →
  (0 <= binary64_round x)%Q ∧ (binary64_round x <= inject_Z k)%Q.
Proof.
  intros Hk H0 Hx. unfold binary64_round. rewrite !Qred_correct.
  destruct x as [n d]. simpl Qnum. simpl Qden.
  destruct n as [|n|n].
  - split; [done|].
    unfold Qle, inject_Z in *. cbn [Qnum Qden] in *. lia.
  - split.
    + apply round_pos_nonneg; lia.
    + apply round_pos_le; [lia|lia|done|].
      unfold Qle, inject_Z in Hx. cbn [Qnum Qden] in Hx. lia.
  - unfold Qle in H0. simpl in H0. lia.
Qed.

(** The doubles nearest to 0.1 and 0.3, and the sum [0.1 + 0.2], which is
    the double above 0.3. *)
Example binary64_round_tenth :
  binary64_round (1 # 10) = (3602879701896397 # 36028797018963968)%Q ∧
  binary64_round (3 # 10) = (5404319552844595 # 18014398509481984)%Q ∧
  binary64_round (binary64_round (1 # 10) + binary64_round (2 # 10))
  = (1351079888211149 # 4503599627370496)%Q.
Proof. vm_compute. repeat split. Qed.

(** Around the smallest positive number [2^-1074]: it is a number of the
    format, half of it is a tie that goes to zero, and one and a half times
    it is a tie that goes up to [2^-1073]. *)
Example binary64_round_subnormal :
  binary64_round (1 # 2 ^ 1074) = (1 # 2 ^ 1074)%Q ∧
  binary64_round ((1 # 2 ^ 1074) * (1 # 2)) = 0%Q ∧
  binary64_round ((1 # 2 ^ 1074) * (3 # 2)) = (1 # 2 ^ 1073)%Q.
Proof. vm_compute. repeat split. Qed.

(** ** Amounts of the rows and their sum *)

(** The error analysis, for any rounding [fl] that moves a value of
    magnitude up to [top] by at most the fraction [u] of it plus [eta], and
    that keeps a percentage within 0 and 100 and a fraction within 0 and
    1. *)
Section FloatModel.
Context (fl : Q → Q) (u eta top : Q).
Hypothesis u_nonneg : (0 <= u)%Q.
Hypothesis u_small : (u <= 1 # 100)%Q.
Hypothesis eta_nonneg : (0 <= eta)%Q.
Hypothesis top_large : (100 <= top)%Q.
Hypothesis fl_error :
  ∀ x, (Qabs x <= top)%Q → (Qabs (fl x - x) <= u * Qabs x + eta)%Q.
Hypothesis fl_percent :
  ∀ x, (0 <= x)%Q → (x <= 100)%Q → (0 <= fl x)%Q ∧ (fl x <= 100)%Q.
Hypothesis fl_unit :
  ∀ x, (0 <= x)%Q → (x <= 1)%Q → (0 <= fl x)%Q ∧ (fl x <= 1)%Q.

(** The amount of one row, [X * (pc.toNumber() / 100)] with its three
    roundings, against the exact share. *)
Lemma share_error (X pc : Q) :
  (0 <= pc)%Q → (pc <= 100)%Q → (Qabs X <= top)%Q →
  (Qabs (fl (X * fl (fl pc / 100)) - X * (pc / 100))
   <= ((1 + u) ^ 3 - 1) * (Qabs X * (pc / 100)) + (2 * Qabs X + 1) * eta)%Q.
Proof.
  intros Hp0 Hp1 HX.
  unfold Qdiv. change (/ 100)%Q with (1 # 100)%Q.
  (* percentage.toNumber() *)
  destruct (fl_percent pc Hp0 Hp1) as [Ha0 Ha1].
  pose proof (fl_error pc) as Ea.
  rewrite (Qabs_pos pc) in Ea by done.
  specialize (Ea ltac:(lra)). apply Qabs_Qle_condition in Ea.
  set (a := fl pc) in *.
  (* ... / 100 *)
  destruct (fl_unit (a * (1 # 100)) ltac:(lra) ltac:(lra)) as [Hq0 Hq1].
  pose proof (fl_error (a * (1 # 100))) as Eq.
  rewrite (Qabs_pos (a * (1 # 100))) in Eq by lra.
  specialize (Eq ltac:(lra)). apply Qabs_Qle_condition in Eq.
  set (q := fl (a * (1 # 100))) in *.
  (* totalAmount * ... *)
  pose proof (Qabs_nonneg X) as HA.
  assert (HXq : (Qabs (X * q) == Qabs X * q)%Q)
    by (by rewrite Qabs_Qmult, (Qabs_pos q)).
  pose proof (fl_error (X * q)) as Eamt. rewrite HXq in Eamt.
  assert (HAq : (Qabs X * q <= Qabs X)%Q) by nra.
  specialize (Eamt ltac:(lra)). apply Qabs_Qle_condition in Eamt.
  set (amt := fl (X * q)) in *.
  (* the quotient against the exact fraction *)
  set (k := (2 * u + u * u)%Q).
  set (m := (1 + (1 # 100) + u * (1 # 100))%Q).
  assert (Hua : (u * a <= u * (pc + u * pc + eta))%Q) by nra.
  assert (Hdq : (Qabs (q - pc * (1 # 100))
                 <= pc * (1 # 100) * k + eta * m)%Q).
  { apply Qabs_Qle_condition. unfold k, m. split; nra. }
  (* totalAmount times the deviation of the quotient *)
  assert (HXdq : (Qabs (X * (q - pc * (1 # 100)))
                  <= Qabs X * (pc * (1 # 100) * k + eta * m))%Q).
  { rewrite Qabs_Qmult.
    pose proof (Qabs_nonneg (q - pc * (1 # 100))).
    nra. }
  apply Qabs_Qle_condition in HXdq. apply Qabs_Qle_condition in Hdq.
  assert (Huq : (u * (Qabs X * q)
                 <= u * (Qabs X * (pc * (1 # 100) * (1 + k) + eta * m)))%Q).
  { assert (q <= pc * (1 # 100) * (1 + k) + eta * m)%Q by lra.
    assert (Qabs X * q
            <= Qabs X * (pc * (1 # 100) * (1 + k) + eta * m))%Q by nra.
    nra. }
  assert (Hm : (m * (1 + u) <= 2)%Q) by (unfold m; nra).
  assert (HAe : (0 <= Qabs X * eta)%Q) by nra.
  assert (Hslack : (Qabs X * eta * (m * (1 + u)) <= Qabs X * eta * 2)%Q)
    by nra.
  set (t := (Qabs X * (pc * (1 # 100)))%Q) in *.
  assert (Hcube : (((1 + u) ^ 3 - 1) * t == u * (t * (1 + k)) + t * k)%Q)
    by (unfold k; ring).
  apply Qabs_Qle_condition. rewrite Hcube.
  assert (E1 : (u * (Qabs X * (pc * (1 # 100) * (1 + k) + eta * m))
                == u * (t * (1 + k)) + Qabs X * eta * (m * u))%Q)
    by (unfold t; ring).
  assert (E2 : (Qabs X * (pc * (1 # 100) * k + eta * m)
                == t * k + Qabs X * eta * m)%Q) by (unfold t; ring).
  assert (E3 : (Qabs X * eta * (m * (1 + u))
                == Qabs X * eta * (m * u) + Qabs X * eta * m)%Q) by ring.
  assert (E4 : (amt - X * (pc * (1 # 100))
                == (amt - X * q) + X * (q - pc * (1 # 100)))%Q) by ring.
  rewrite E4. rewrite E1 in Huq. rewrite E2 in HXdq. rewrite E3 in Hslack.
  split; lra.
Qed.

(** The shares of a list of percentages against the exact share of their
    sum: the deviations of the rows add up. *)
Lemma shares_sum_error (X : Q) (l : list Q) :
  Forall (λ pc, (0 <= pc)%Q ∧ (pc <= 100)%Q) l →
  (Qabs X <= top)%Q →
  (Qabs (Qsum (map (λ pc, fl (X * fl (fl pc / 100))) l)
         - X * (Qsum l / 100))
   <= ((1 + u) ^ 3 - 1) * (Qabs X * (Qsum l / 100))
      + inject_Z (Z.of_nat (length l)) * ((2 * Qabs X + 1) * eta))%Q.
Proof.
  intros Hl HX.
  induction Hl as [|pc l [Hp0 Hp1] _ IH]; cbn [Qsum map length].
  - apply Qabs_Qle_condition. unfold Qdiv. split; ring_simplify; lra.
  - pose proof (share_error X pc Hp0 Hp1 HX) as Hone.
    apply Qabs_Qle_condition in Hone. apply Qabs_Qle_condition in IH.
    apply Qabs_Qle_condition.
    rewrite Nat2Z.inj_succ, <- Z.add_1_r, inject_Z_plus.
    change (inject_Z 1) with 1%Q.
    unfold Qdiv in *. change (/ 100)%Q with (1 # 100)%Q in *.
    set (eps := ((1 + u) ^ 3 - 1)%Q) in *. clearbody eps.
    set (slack := ((2 * Qabs X + 1) * eta)%Q) in *. clearbody slack.
    set (len := inject_Z (Z.of_nat (length l))) in *. clearbody len.
    split; lra.
Qed.

End FloatModel.

Lemma Qsum_nonneg (l : list Q) :
  Forall (λ x, (0 <= x)%Q) l → (0 <= Qsum l)%Q.
Proof.
  induction 1 as [|x l Hx _ IH]; cbn [Qsum]; [done|lra].
Qed.

(** Non-negative numbers are each at most their sum. *)
Lemma Qsum_member_le (l : list Q) :
  Forall (λ x, (0 <= x)%Q) l → Forall (λ x, (x <= Qsum l)%Q) l.
Proof.
  induction 1 as [|x l Hx Hl IH]; cbn [Qsum]; [done|].
  pose proof (Qsum_nonneg l Hl) as Hs.
  constructor; [lra|].
  eapply Forall_impl; [exact IH|]. simpl. intros y Hy. lra.
Qed.

(** C8 (as amended). When the platform wallet is initialised and the
    payment exists, the numbers of the runtime are binary64 (round to
    nearest, ties to even, subnormal numbers included), the total amount is
    a finite number and the percentages of the active stakeholders are
    non-negative and sum to 100, one run of [distributePayment] appends one
    row per active stakeholder, in their order, for that stakeholder's
    wallet and type and with the amount
    [totalAmount * (percentage.toNumber() / 100)] of JavaScript arithmetic.
    The exact sum of the amounts differs from [totalAmount] by at most the
    fraction [(1 + u)^3 - 1] of it, [u = 2^-53], for the three roundings
    per row, plus [(2 |totalAmount| + 1) * 2^-1075] per row for results in
    the subnormal range. *)
Theorem distributePayment_amounts_sum (E : Env) (paymentId : string)
    (totalAmount : Q) (s : State) (w : string) (p : Payment) :
  platformWallet s = Some w →
  payments s !! paymentId = Some p →
  (∀ x : Q, (Qabs x <= max_double)%Q → js_round E x = binary64_round x) →
  (Qabs totalAmount <= max_double)%Q →
  let active := filter (λ sh, isActive sh = true) (stakeholders s) in
  Forall (λ sh, (0 <= percentage sh)%Q) active →
  (Qsum (map percentage active) == 100)%Q →
  let rows :=
    new_rows s
      (state_of (WalletService.distributePayment E paymentId totalAmount s)) in
  Forall2 (λ row sh,
             pd_paymentId row = paymentId ∧
             recipient row = walletId sh ∧
             pd_type row = sh_type sh ∧
             pd_amount row
             = js_round E (totalAmount
                           * js_round E (js_round E (percentage sh) / 100)))
    rows active ∧
  (Qabs (Qsum (map pd_amount rows) - totalAmount)
   <= ((1 + unit_roundoff) ^ 3 - 1) * Qabs totalAmount
      + inject_Z (Z.of_nat (length active))
        * ((2 * Qabs totalAmount + 1) * half_subnormal))%Q.
Proof.
  intros Hw Hp Hfl HX active Hpos Hsum rows.
  pose proof (new_rows_identity E paymentId totalAmount s w p Hw Hp) as Hid.
  fold rows in Hid. unfold distribution_rows in Hid.
  change (WalletService.active_stakeholders s) with active in Hid.
  rewrite <- list_fmap_compose in Hid.
  assert (Hrows :
    Forall2 (λ row sh,
               pd_paymentId row = paymentId ∧
               recipient row = walletId sh ∧
               pd_type row = sh_type sh ∧
               pd_amount row
               = js_round E (totalAmount
                             * js_round E (js_round E (percentage sh) / 100)))
      rows active).
  { apply list_eq_Forall2 in Hid.
    apply (proj1 (Forall2_fmap row_identity
                    (row_identity
                     ∘ WalletService.new_distribution E paymentId totalAmount)
                    eq rows active)) in Hid.
    eapply Forall2_impl; [exact Hid|]. simpl. intros row sh Heq.
    unfold row_identity in Heq. by injection Heq as -> -> -> ->. }
  split; [exact Hrows|].
  assert (Hamounts :
    map pd_amount rows
    = map (λ pc, js_round E (totalAmount * js_round E (js_round E pc / 100)))
        (map percentage active)).
  { rewrite map_map. clear -Hrows.
    induction Hrows as [|row sh rows' active' (_ & _ & _ & Ha) _ IH];
      [done|]. simpl. by rewrite Ha, IH. }
  rewrite Hamounts.
  assert (H100 : (100 <= max_double)%Q)
    by (apply Qle_bool_imp_le; vm_compute; reflexivity).
  assert (Hbounds : Forall (λ pc, (0 <= pc)%Q ∧ (pc <= 100)%Q)
                      (map percentage active)).
  { assert (Hnn : Forall (λ pc, (0 <= pc)%Q) (map percentage active)).
    { apply Forall_fmap. exact Hpos. }
    pose proof (Qsum_member_le _ Hnn) as Hle.
    apply Forall_forall. intros pc Hpc. split.
    - by apply (proj1 (Forall_forall _ _) Hnn).
    - apply (proj1 (Forall_forall _ _) Hle) in Hpc. simpl in Hpc.
      by rewrite Hsum in Hpc. }
  pose proof (shares_sum_error (js_round E) unit_roundoff half_subnormal
                max_double) as Hall.
  specialize (Hall ltac:(discriminate) ltac:(discriminate)
                ltac:(discriminate) H100).
  assert (Hin : ∀ x, (0 <= x)%Q → (x <= 100)%Q → (Qabs x <= max_double)%Q).
  { intros x H0 H1. rewrite Qabs_pos by done. lra. }
  specialize (Hall
    (λ x Hx, eq_ind_r (λ y, (Qabs (y - x)
                             <= unit_roundoff * Qabs x + half_subnormal)%Q)
               (binary64_round_error x) (Hfl x Hx))).
  specialize (Hall
    (λ x H0 H1, eq_ind_r (λ y, (0 <= y)%Q ∧ (y <= 100)%Q)
                  (binary64_round_range x 100 eq_refl H0 H1)
                  (Hfl x (Hin x H0 H1)))).
  specialize (Hall
    (λ x H0 H1, eq_ind_r (λ y, (0 <= y)%Q ∧ (y <= 1)%Q)
                  (binary64_round_range x 1 eq_refl H0 H1)
                  (Hfl x (Hin x H0 ltac:(lra))))).
  specialize (Hall totalAmount (map percentage active) Hbounds HX).
  rewrite length_map in Hall. rewrite Hsum in Hall.
  assert (H1 : (totalAmount * (100 / 100) == totalAmount)%Q) by field.
  assert (H2 : (Qabs totalAmount * (100 / 100) == Qabs totalAmount)%Q)
    by field.
  by rewrite H1, H2 in Hall.
Qed.

Lemma distributePayment_amounts_sum_witness :
  (Qabs (Qsum (map pd_amount
                 (new_rows demoStateWallet
                    (state_of (WalletService.distributePayment demoEnv "p1" 25
                                 demoStateWallet))))
         - 25)
   <= ((1 + unit_roundoff) ^ 3 - 1) * Qabs 25
      + inject_Z 3 * ((2 * Qabs 25 + 1) * half_subnormal))%Q.
Proof.
  apply (distributePayment_amounts_sum demoEnv "p1" 25 demoStateWallet
           "platform-wallet" demoPayment).
  - reflexivity.
  - reflexivity.
  - reflexivity.
  - apply Qle_bool_imp_le. vm_compute. reflexivity.
  - vm_compute. repeat constructor; discriminate.
  - reflexivity.
Defined.

(** C8 (as stated) fails where a guard of [distributePayment] stops the
    run: on the wallet service of the payment service, which holds no
    platform wallet, the active percentages 60, 25 and 15 sum to 100 and the
    run for the existing payment "p1" throws without writing a row, so there
    is no row per active stakeholder, whatever the tolerance. *)
Lemma amounts_sum_counterexample :
  (Qsum (map percentage (WalletService.active_stakeholders demoState)) == 100)%Q
  ∧ ∀ tolerance : Q,
      ¬ distributes_whole_amount demoEnv "p1" 25 tolerance demoState.
Proof.
  split; [reflexivity|]. intros tolerance [Hrows _].
  apply Forall2_length in Hrows. vm_compute in Hrows. discriminate Hrows.
Qed.

(** The fraction alone does not bound the deviation: of the smallest
    positive amount two stakeholders at 50 percent each get nothing, so the
    rows sum to zero. *)
Example amounts_underflow :
  WalletService.distribution_amount demoEnv (1 # 2 ^ 1074)
    (mkStakeholder "w-lab" 50 "RESEARCHER" true) = 0%Q.
Proof. vm_compute. reflexivity. Qed.

(** * Further properties of the services *)

(** ** The webhook on notifications it does not act on *)

(** X1. A notification whose status is neither "completed" nor "failed"
    (missing, null, another string, another JSON value) is acknowledged with
    200 and changes nothing, whatever its reference and signature. *)
Theorem webhook_other_status_acknowledged (E : Env) (now : Z)
    (x_signature signature_header : option string) (payload : WebhookPayload)
    (s : State) :
  status payload ≠ JString "completed" →
  status payload ≠ JString "failed" →
  Routes.webhook E now x_signature signature_header payload s
  = (Ok (mkResponse 200 BodyReceived), s).
Proof.
  intros Hc Hf. unfold Routes.webhook, asyncHandler.
  apply try_catch_Ok. erewrite bind_Ok; [reflexivity|].
  unfold PaymentService.handlePaymentWebhook. rewrite try_catch_rethrow.
  destruct (decide (status payload = JString "completed")); [done|].
  destruct (decide (status payload = JString "failed")); done.
Qed.

Lemma webhook_other_status_acknowledged_witness :
  Routes.webhook demoEnv 1000 None None
    (mkPayload (JString "no-such-payment") (JString "refunded") JUndefined)
    demoState
  = (Ok (mkResponse 200 BodyReceived), demoState).
Proof.
  apply (webhook_other_status_acknowledged demoEnv 1000 None None
           (mkPayload (JString "no-such-payment") (JString "refunded")
              JUndefined) demoState); discriminate.
Defined.

Lemma payment_update_unknown (where_id : JsVal)
    (data : option (Payment → Payment)) (s : State) :
  (∀ id, where_id = JString id → payments s !! id = None) →
  ∃ e, payment_update where_id data s = (Throw e, s).
Proof.
  intros Hid. unfold payment_update.
  destruct where_id as [| |id|v|]; try (by eexists).
  destruct data as [upd|]; [|by eexists].
  run. rewrite (Hid id eq_refl). by eexists.
Qed.

(** X2. A "completed" or "failed" notification whose reference is missing,
    is not a string, or names no payment makes the route answer 500 and
    changes nothing: no row is written and no side effect is recorded. *)
Theorem webhook_unknown_reference (E : Env) (now : Z)
    (x_signature signature_header : option string) (payload : WebhookPayload)
    (s : State) :
  status payload = JString "completed" ∨ status payload = JString "failed" →
  (∀ id, reference payload = JString id → payments s !! id = None) →
  ∃ e, Routes.webhook E now x_signature signature_header payload s
       = (Ok (mkResponse 500 (BodyException e)), s).
Proof.
  intros Hst Hid. unfold Routes.webhook, asyncHandler.
  assert (Hthrow : ∃ e,
             PaymentService.handlePaymentWebhook E now payload
               (js_or x_signature signature_header) s = (Throw e, s)).
  { unfold PaymentService.handlePaymentWebhook. rewrite try_catch_rethrow.
    destruct Hst as [Hst|Hst]; rewrite Hst; simpl.
    - destruct (payment_update_unknown (reference payload)
                  (completed_data (transaction_hash payload) now) s Hid)
        as [e He].
      exists e. by erewrite bind_Throw.
    - destruct (payment_update_unknown (reference payload) (Some failed_data)
                  s Hid) as [e He].
      exists e. by erewrite bind_Throw. }
  destruct Hthrow as [e He]. exists e.
  erewrite try_catch_Throw; [reflexivity|]. by erewrite bind_Throw.
Qed.

Lemma webhook_unknown_reference_witness :
  ∃ e, Routes.webhook demoEnv 1000 None None
         (mkPayload JUndefined (JString "completed") (JString "0xabc"))
         demoState
       = (Ok (mkResponse 500 (BodyException e)), demoState).
Proof.
  apply (webhook_unknown_reference demoEnv 1000 None None
           (mkPayload JUndefined (JString "completed") (JString "0xabc"))
           demoState).
  - left. reflexivity.
  - intros id Hid. discriminate Hid.
Defined.

(** ** The "failed" branch and the uninitialised platform wallet *)

Lemma payment_update_cases (where_id : JsVal)
    (data : option (Payment → Payment)) (s : State) :
  (∃ e, payment_update where_id data s = (Throw e, s)) ∨
  (∃ id upd p,
     where_id = JString id ∧ data = Some upd ∧ payments s !! id = Some p ∧
     payment_update where_id data s
     = (Ok (id, upd p), after_payment_update id (upd p) s)).
Proof.
  unfold payment_update.
  destruct where_id as [| |id|v|]; try (left; by eexists).
  destruct data as [upd|]; [|left; by eexists].
  run. destruct (payments s !! id) as [p|] eqn:Hp.
  - right. by exists id, upd, p.
  - left. by eexists.
Qed.

Lemma handlePaymentWebhook_failed_run (E : Env) (now : Z) (id : string)
    (hash : JsVal) (signature : option string) (s : State) (p : Payment) :
  payments s !! id = Some p →
  PaymentService.handlePaymentWebhook E now
    (mkPayload (JString id) (JString "failed") hash) signature s
  = (Ok tt, after_payment_update id (failed_data p) s).
Proof.
  intros Hp. unfold PaymentService.handlePaymentWebhook.
  rewrite try_catch_rethrow. simpl.
  erewrite bind_Ok.
  2:{ unfold payment_update. run. rewrite Hp. reflexivity. }
  reflexivity.
Qed.

Lemma completed_delivery_payment (E : Env) (now : Z) (id h : string)
    (signature : option string) (s : State) (p : Payment) :
  payments s !! id = Some p →
  payments
    (state_of
       (PaymentService.handlePaymentWebhook E now
          (mkPayload (JString id) (JString "completed") (JString h))
          signature s)) !! id
  = Some (completed_payment h now p).
Proof.
  intros Hp.
  rewrite (handlePaymentWebhook_completed_run E now id h signature s p Hp).
  destruct (distributePayment_frame E id
              (WalletService.toNumber E (pay_amount p))
              (after_completion_hook id
                 (after_payment_update id (completed_payment h now p) s)))
    as [-> _].
  rewrite after_completion_hook_payments. simpl. apply lookup_insert_eq.
Qed.

(** X3. A "failed" notification is applied to a payment in any status: after
    a "completed" delivery a later "failed" one is acknowledged without
    error and turns the payment to FAILED, keeping the settlement hash and
    completion time of the first; it touches neither analyses nor
    distribution rows, and from then on [processAnalysis] refuses every
    analysis bound to the payment with 400 "Payment not completed". *)
Theorem failed_after_completed (E : Env) (t1 t2 t3 : Z) (id h : string)
    (hash : JsVal) (sig1 sig2 : option string) (s : State) (p : Payment) :
  payments s !! id = Some p →
  let s1 :=
    state_of (PaymentService.handlePaymentWebhook E t1
                (mkPayload (JString id) (JString "completed") (JString h))
                sig1 s) in
  let r2 :=
    PaymentService.handlePaymentWebhook E t2
      (mkPayload (JString id) (JString "failed") hash) sig2 s1 in
  result_of r2 = Ok tt ∧
  payments (state_of r2) !! id
  = Some (mkPayment (pay_userId p) (pay_amount p) (pay_currency p) FAILED
            (pay_x402PaymentId p) (Some h) (Some t1)) ∧
  analyses (state_of r2) = analyses s1 ∧
  distributions (state_of r2) = distributions s1 ∧
  ∀ aid a,
    analyses (state_of r2) !! aid = Some a →
    an_paymentId a = Some id →
    AnalysisController.processAnalysis E t3 aid (state_of r2)
    = (Ok payment_not_completed, state_of r2).
Proof.
  intros Hp s1 r2.
  pose proof (completed_delivery_payment E t1 id h sig1 s p Hp) as Hp1.
  fold s1 in Hp1.
  assert (Hr2 : r2 = (Ok tt, after_payment_update id
                               (failed_data (completed_payment h t1 p)) s1))
    by by apply handlePaymentWebhook_failed_run.
  rewrite Hr2. simpl. split; [done|]. split; [apply lookup_insert_eq|].
  split; [done|]. split; [done|].
  intros aid a Ha Hlink.
  unfold AnalysisController.processAnalysis. apply try_catch_Ok. run.
  rewrite Ha. unfold payment_of_analysis. simpl. rewrite Hlink. simpl.
  rewrite lookup_insert_eq. reflexivity.
Qed.

Lemma failed_after_completed_witness :
  pay_status <$>
    payments
      (state_of
         (PaymentService.handlePaymentWebhook demoEnv 2000
            (mkPayload (JString "p1") (JString "failed") JUndefined) None
            (state_of
               (PaymentService.handlePaymentWebhook demoEnv 1000 demoPayload
                  None demoState)))) !! "p1"
  = Some FAILED.
Proof.
  destruct (failed_after_completed demoEnv 1000 2000 3000 "p1" "0xabc"
              JUndefined None None demoState demoPayment)
    as (_ & Hpay & _).
  - reflexivity.
  - unfold demoPayload. rewrite Hpay. reflexivity.
Defined.



Lemma webhook_state (E : Env) (now : Z) (x y : option string)
    (payload : WebhookPayload) (s : State) :
  state_of (Routes.webhook E now x y payload s)
  = state_of (PaymentService.handlePaymentWebhook E now payload (js_or x y) s).
Proof.
  unfold Routes.webhook, asyncHandler, try_catch. unfold mbind, M_bind.
  by destruct (PaymentService.handlePaymentWebhook E now payload _ s)
    as [[[]|e] s'].
Qed.

(** One delivery against a service without platform wallet. *)
Lemma delivery_without_wallet (E : Env) (now : Z) (payload : WebhookPayload)
    (signature : option string) (s : State) :
  platformWallet s = None →
  let s' :=
    state_of (PaymentService.handlePaymentWebhook E now payload signature s) in
  platformWallet s' = None ∧
  distributions s' = distributions s ∧
  ∃ evs, log s' = (log s ++ evs)%list ∧ transfers evs = [].
Proof.
  intros Hw. unfold PaymentService.handlePaymentWebhook.
  rewrite try_catch_rethrow.
  assert (Hsame : platformWallet s = None ∧ distributions s = distributions s ∧
                  ∃ evs, log s = (log s ++ evs)%list ∧ transfers evs = []).
  { split; [done|]. split; [done|]. exists []. by rewrite app_nil_r. }
  destruct (decide (status payload = JString "completed")) as [Hc|Hc].
  - destruct (payment_update_cases (reference payload)
                (completed_data (transaction_hash payload) now) s)
      as [[e He]|(id & upd & p & _ & _ & Hp & Hrun)].
    + by erewrite bind_Throw.
    + erewrite bind_Ok by exact Hrun. simpl.
      erewrite bind_Ok by apply processPaymentCompletion_run.
      rewrite distributePayment_no_wallet.
      2:{ unfold after_completion_hook.
          by destruct (analysis_of_payment _ _) as [[??]|]. }
      unfold after_completion_hook. simpl.
      destruct (analysis_of_payment _ _) as [[aid a]|]; simpl.
      * split; [done|]. split; [done|]. eexists. split.
        { rewrite <- app_assoc. reflexivity. }
        done.
      * split; [done|]. split; [done|]. by eexists.
  - destruct (decide (status payload = JString "failed")) as [Hf|Hf];
      [|exact Hsame].
    destruct (payment_update_cases (reference payload) (Some failed_data) s)
      as [[e He]|(id & upd & p & _ & _ & Hp & Hrun)].
    + by erewrite bind_Throw.
    + erewrite bind_Ok by exact Hrun. simpl.
      split; [done|]. split; [done|]. by eexists.
Qed.

Lemma serve_deliveries_cons (E : Env) (d : Delivery) (rest : list Delivery)
    (s : State) :
  serve_deliveries E (d :: rest) s
  = serve_deliveries E rest
      (state_of (PaymentService.handlePaymentWebhook E (dl_now d)
                   (dl_payload d) (js_or (dl_x_signature d) (dl_signature d))
                   s)).
Proof. unfold serve_deliveries. simpl. by rewrite webhook_state. Qed.

(** X5. No sequence of webhook deliveries, whatever the payloads, ever
    initialises the platform wallet of the payment service; starting without
    one, the distribution table stays as it was and not a single transfer is
    attempted, however many payments the deliveries complete. *)
Theorem deliveries_never_distribute (E : Env) (ds : list Delivery)
    (s : State) :
  platformWallet s = None →
  let s' := serve_deliveries E ds s in
  platformWallet s' = None ∧
  distributions s' = distributions s ∧
  transfers (new_events s s') = [].
Proof.
  intros Hw.
  assert (H : platformWallet (serve_deliveries E ds s) = None ∧
              distributions (serve_deliveries E ds s) = distributions s ∧
              ∃ evs, log (serve_deliveries E ds s) = (log s ++ evs)%list ∧
                     transfers evs = []).
  { revert s Hw. induction ds as [|d rest IH]; intros s Hw.
    - split; [done|]. split; [done|]. exists []. by rewrite app_nil_r.
    - rewrite serve_deliveries_cons.
      destruct (delivery_without_wallet E (dl_now d) (dl_payload d)
                  (js_or (dl_x_signature d) (dl_signature d)) s Hw)
        as (Hw1 & Hd1 & evs1 & Hl1 & Ht1).
      destruct (IH _ Hw1) as (Hw2 & Hd2 & evs2 & Hl2 & Ht2).
      split; [exact Hw2|]. split; [by rewrite Hd2|].
      exists (evs1 ++ evs2)%list. split.
      + rewrite Hl2, Hl1. by rewrite <- app_assoc.
      + unfold transfers in *. by rewrite omap_app, Ht1, Ht2. }
  destruct H as (Hw' & Hd' & evs & Hl & Ht).
  simpl. split; [exact Hw'|]. split; [exact Hd'|].
  by rewrite (new_events_app _ _ evs Hl).
Qed.

Lemma deliveries_never_distribute_witness :
  let s' :=
    serve_deliveries demoEnv
      [ mkDelivery 1000 None None demoPayload;
        mkDelivery 2000 (Some "sig") None demoPayload ] demoState in
  pay_status <$> payments s' !! "p1" = Some COMPLETED ∧
  distributions s' = distributions demoState.
Proof.
  split; [reflexivity|].
  apply (deliveries_never_distribute demoEnv
           [ mkDelivery 1000 None None demoPayload;
             mkDelivery 2000 (Some "sig") None demoPayload ] demoState).
  reflexivity.
Defined.

(** ** More on [distributePayment] *)

(** X6. The two guards of [distributePayment], in their order: without a
    platform wallet it throws "Platform wallet not initialized", with one
    but for an unknown payment it throws "Payment not found"; in both cases
    nothing has been written and no transfer attempted. *)
Theorem distributePayment_guards (E : Env) (paymentId : string)
    (totalAmount : Q) (s : State) :
  platformWallet s = None ∨ payments s !! paymentId = None →
  WalletService.distributePayment E paymentId totalAmount s
  = (Throw (Error (match platformWallet s with
                   | None => "Platform wallet not initialized"
                   | Some _ => "Payment not found"
                   end)), s).
Proof.
  intros Hguard. destruct (platformWallet s) as [w|] eqn:Hw.
  - destruct Hguard as [Hnone|Hp]; [discriminate Hnone|].
    by apply (distributePayment_no_payment E paymentId totalAmount s w).
  - by apply distributePayment_no_wallet.
Qed.

Lemma distributePayment_guards_witness :
  WalletService.distributePayment demoEnv "no-such-payment" 25 demoStateWallet
  = (Throw (Error "Payment not found"), demoStateWallet).
Proof.
  apply (distributePayment_guards demoEnv "no-such-payment" 25
           demoStateWallet).
  right. reflexivity.
Defined.

(** X7. With a platform wallet and a known payment but no active stakeholder
    (none configured, or all inactive) [distributePayment] succeeds without
    writing a row or attempting a transfer: the money stays where it is and
    nothing reports it. *)
Theorem distributePayment_no_active_stakeholder (E : Env) (paymentId : string)
    (totalAmount : Q) (s : State) (w : string) (p : Payment) :
  platformWallet s = Some w →
  payments s !! paymentId = Some p →
  Forall (λ sh, isActive sh = false) (stakeholders s) →
  let r := WalletService.distributePayment E paymentId totalAmount s in
  result_of r = Ok tt ∧
  distributions (state_of r) = distributions s ∧
  new_events s (state_of r) = [EvDistributionCreateMany []].
Proof.
  intros Hw Hp Hinactive r.
  assert (Hnone : WalletService.active_stakeholders s = []).
  { unfold WalletService.active_stakeholders.
    induction Hinactive as [|sh l Hsh _ IH]; [done|].
    rewrite filter_cons_False; [exact IH|]. by rewrite Hsh. }
  unfold r.
  rewrite (distributePayment_run E paymentId totalAmount s w p Hw Hp).
  unfold distribution_rows. rewrite Hnone. simpl.
  split; [done|]. split; [apply app_nil_r|].
  by apply new_events_app.
Qed.

Lemma distributePayment_no_active_stakeholder_witness :
  let r := WalletService.distributePayment demoEnv "p1" 25 idleState in
  result_of r = Ok tt ∧
  distributions (state_of r) = distributions idleState ∧
  new_events idleState (state_of r) = [EvDistributionCreateMany []].
Proof.
  apply (distributePayment_no_active_stakeholder demoEnv "p1" 25 idleState
           "platform-wallet" demoPayment).
  - reflexivity.
  - reflexivity.
  - repeat constructor.
Defined.

Lemma filter_other_payment_step (E : Env) (paymentId : string) (s : State)
    (d : PaymentDistribution) :
  filter (λ r, pd_paymentId r ≠ paymentId)
    (distributions (transfer_step E paymentId s d))
  = filter (λ r, pd_paymentId r ≠ paymentId) (distributions s).
Proof.
  unfold transfer_step. simpl.
  induction (distributions s) as [|r l IH]; [done|]. simpl.
  destruct (WalletService.row_matches paymentId (recipient d) (pd_type d) r)
    eqn:Hm.
  - assert (Hr : pd_paymentId r = paymentId).
    { unfold WalletService.row_matches in Hm.
      rewrite !andb_true_iff, !bool_decide_eq_true in Hm. by destruct Hm as [[? _] _]. }
    rewrite !filter_cons_False.
    + exact IH.
    + intros Hne. by apply Hne.
    + intros Hne. apply Hne.
      by destruct (createTransfer E (log s) (pd_amount d) (recipient d)).
  - destruct (decide (pd_paymentId r ≠ paymentId)) as [Hne|Heq].
    + rewrite !filter_cons_True by done. by rewrite IH.
    + rewrite !filter_cons_False by done. exact IH.
Qed.

Lemma filter_other_payment_loop (E : Env) (paymentId : string)
    (ds : list PaymentDistribution) (s : State) :
  filter (λ r, pd_paymentId r ≠ paymentId)
    (distributions (foldl (transfer_step E paymentId) s ds))
  = filter (λ r, pd_paymentId r ≠ paymentId) (distributions s).
Proof.
  revert s. induction ds as [|d rest IH]; intros s; [done|].
  simpl. rewrite IH. apply filter_other_payment_step.
Qed.

(** X8. Whatever happens in a run of [distributePayment] for one payment,
    it leaves the payments, the analyses, the stakeholder configuration and
    the platform wallet as they were, it removes or re-addresses no existing
    distribution row, and the rows of every other payment keep status and
    hash exactly. *)
Theorem distributePayment_frame_rule (E : Env) (paymentId : string)
    (totalAmount : Q) (s : State) :
  let s' :=
    state_of (WalletService.distributePayment E paymentId totalAmount s) in
  payments s' = payments s ∧
  analyses s' = analyses s ∧
  stakeholders s' = stakeholders s ∧
  platformWallet s' = platformWallet s ∧
  map row_identity (take (length (distributions s)) (distributions s'))
  = map row_identity (distributions s) ∧
  filter (λ r, pd_paymentId r ≠ paymentId) (distributions s')
  = filter (λ r, pd_paymentId r ≠ paymentId) (distributions s).
Proof.
  destruct (platformWallet s) as [w|] eqn:Hw.
  - destruct (payments s !! paymentId) as [p|] eqn:Hp.
    + rewrite (distributePayment_run E paymentId totalAmount s w p Hw Hp).
      simpl.
      set (rows := distribution_rows E paymentId totalAmount s).
      destruct (transfer_loop_frame E paymentId rows (persisted rows s))
        as (Hpay & Han & Hsh & Hpw).
      pose proof (transfer_loop_identity E paymentId rows (persisted rows s))
        as Hid.
      simpl in *. rewrite Hpay, Han, Hsh, Hpw, Hw.
      repeat split; try done.
      * rewrite <- firstn_map, Hid, map_app, take_app_length'; [done|].
        by rewrite length_map.
      * rewrite filter_other_payment_loop. simpl. rewrite filter_app.
        assert (Hnew : filter (λ r, pd_paymentId r ≠ paymentId) rows = []).
        { unfold rows, distribution_rows.
          induction (WalletService.active_stakeholders s) as [|sh l IH];
            [done|].
          simpl. rewrite filter_cons_False; [exact IH|].
          intros Hne. by apply Hne. }
        by rewrite Hnew, app_nil_r.
    + rewrite (distributePayment_no_payment E paymentId totalAmount s w Hw Hp).
      simpl. rewrite Hw, take_ge by lia. done.
  - rewrite (distributePayment_no_wallet E paymentId totalAmount s Hw).
    simpl. rewrite Hw, take_ge by lia. done.
Qed.

(** X9. Money only ever goes to active stakeholders: every transfer a run of
    [distributePayment] attempts is addressed to the wallet of a stakeholder
    that is configured and active, for the amount computed from that
    stakeholder's percentage. *)
Theorem distributePayment_pays_active_only (E : Env) (paymentId : string)
    (totalAmount : Q) (s : State) :
  let s' :=
    state_of (WalletService.distributePayment E paymentId totalAmount s) in
  Forall (λ t,
            ∃ sh, sh ∈ stakeholders s ∧ isActive sh = true ∧
                  snd (fst t) = walletId sh ∧
                  fst (fst t)
                  = WalletService.distribution_amount E totalAmount sh)
    (transfers (new_events s s')).
Proof.
  destruct (platformWallet s) as [w|] eqn:Hw.
  - destruct (payments s !! paymentId) as [p|] eqn:Hp.
    + rewrite (distributePayment_run E paymentId totalAmount s w p Hw Hp).
      simpl.
      set (rows := distribution_rows E paymentId totalAmount s).
      destruct (transfer_loop_log E paymentId rows (persisted rows s))
        as (evs & Hlog & Htr & _).
      erewrite new_events_app.
      2:{ rewrite Hlog. simpl. rewrite <- app_assoc. reflexivity. }
      simpl. apply Forall_forall. intros [[a d] o] Hin.
      assert (Hfst : (a, d) ∈ map fst (transfers evs)).
      { apply (list_elem_of_fmap_2 fst) in Hin. exact Hin. }
      rewrite Htr in Hfst. unfold rows, distribution_rows in Hfst.
      rewrite <- list_fmap_compose in Hfst.
      apply list_elem_of_fmap in Hfst as (sh & Heq & Hsh).
      unfold WalletService.active_stakeholders in Hsh.
      apply list_elem_of_filter in Hsh as [Hact Hsh].
      injection Heq as -> ->. by exists sh.
    + rewrite (distributePayment_no_payment E paymentId totalAmount s w Hw Hp).
      simpl. unfold new_events. rewrite drop_all. constructor.
  - rewrite (distributePayment_no_wallet E paymentId totalAmount s Hw).
    simpl. unfold new_events. rewrite drop_all. constructor.
Qed.

(** ** Creating payments and analysis requests *)

Lemma new_id_fresh {V} (table : gmap string V) : table !! new_id table = None.
Proof. apply not_elem_of_dom. unfold new_id. apply is_fresh. Qed.

(** [createPayment] up to the answer of the gateway. *)
Lemma createPayment_run (E : Env) (userId analysisType : string) (amount : Q)
    (s : State) :
  let id := new_id (payments s) in
  let outcome :=
    x402_post E (log s ++ [EvPaymentCreate id])%list id
      (WalletService.js_mul E amount 100) in
  PaymentService.createPayment E userId analysisType amount s
  = match outcome with
    | Some x =>
        (Ok id,
         mkState (<[id := pending_payment userId amount (Some x)]> (payments s))
           (analyses s) (distributions s) (stakeholders s) (platformWallet s)
           (log s ++ payment_request_events E id amount outcome
            ++ [EvPaymentUpdate id])%list)
    | None =>
        (Throw GatewayError,
         mkState (<[id := pending_payment userId amount None]> (payments s))
           (analyses s) (distributions s) (stakeholders s) (platformWallet s)
           (log s ++ payment_request_events E id amount outcome)%list)
    end.
Proof.
  intros id outcome. unfold PaymentService.createPayment.
  rewrite try_catch_rethrow. run. fold id.
  unfold PaymentService.createX402Payment. rewrite try_catch_rethrow. run.
  fold outcome. destruct outcome as [x|]; simpl.
  - unfold payment_update. run. rewrite lookup_insert_eq. simpl.
    rewrite insert_insert_eq. unfold payment_request_events, pending_payment.
    by rewrite <- !app_assoc.
  - unfold payment_request_events. by rewrite <- !app_assoc.
Qed.

(** X10. When the gateway accepts the intent, [createPayment] returns an id
    that was not in use, under which the payment is stored PENDING in USD
    with the requested amount, the owner and the gateway's reference; every
    other payment, the analyses and the distribution rows are as before. *)
Theorem createPayment_success (E : Env) (userId analysisType : string)
    (amount : Q) (s : State) (x : string) :
  let id := new_id (payments s) in
  x402_post E (log s ++ [EvPaymentCreate id])%list id
    (WalletService.js_mul E amount 100) = Some x →
  let r := PaymentService.createPayment E userId analysisType amount s in
  result_of r = Ok id ∧
  payments s !! id = None ∧
  payments (state_of r) !! id = Some (pending_payment userId amount (Some x)) ∧
  (∀ other, other ≠ id →
     payments (state_of r) !! other = payments s !! other) ∧
  analyses (state_of r) = analyses s ∧
  distributions (state_of r) = distributions s.
Proof.
  intros id Hpost r. unfold r. rewrite createPayment_run. fold id.
  rewrite Hpost. simpl. split; [done|]. split; [apply new_id_fresh|].
  split; [apply lookup_insert_eq|]. split; [|done].
  intros other Hne. by apply lookup_insert_ne.
Qed.

Lemma createPayment_success_witness :
  let r := PaymentService.createPayment demoEnv "bob" "technicalAnalysis" 25
             demoState in
  result_of r = Ok "0" ∧
  payments (state_of r) !! "0"
  = Some (pending_payment "bob" 25 (Some "x402-0")).
Proof.
  destruct (createPayment_success demoEnv "bob" "technicalAnalysis" 25
              demoState "x402-0") as (Hres & _ & Hpay & _).
  - reflexivity.
  - split; [exact Hres | exact Hpay].
Defined.

(** X11. When the gateway refuses the intent, [createPayment] throws the
    gateway's error and leaves the payment row behind: PENDING, with no
    gateway reference, under a fresh id that is never returned to the
    caller. *)
Theorem createPayment_gateway_failure (E : Env) (userId analysisType : string)
    (amount : Q) (s : State) :
  let id := new_id (payments s) in
  x402_post E (log s ++ [EvPaymentCreate id])%list id
    (WalletService.js_mul E amount 100) = None →
  let r := PaymentService.createPayment E userId analysisType amount s in
  result_of r = Throw GatewayError ∧
  payments s !! id = None ∧
  payments (state_of r) = <[id := pending_payment userId amount None]>
                            (payments s).
Proof.
  intros id Hpost r. unfold r. rewrite createPayment_run. fold id.
  rewrite Hpost. simpl. split; [done|]. split; [apply new_id_fresh|done].
Qed.

Lemma createPayment_gateway_failure_witness :
  let r := PaymentService.createPayment offlineEnv "bob" "technicalAnalysis"
             25 demoState in
  result_of r = Throw GatewayError ∧
  payments (state_of r) !! "0" = Some (pending_payment "bob" 25 None).
Proof.
  destruct (createPayment_gateway_failure offlineEnv "bob" "technicalAnalysis"
              25 demoState) as (Hres & _ & Hpay).
  - reflexivity.
  - split; [exact Hres|]. rewrite Hpay. reflexivity.
Defined.

Lemma pricing_lookup_nonzero (type : string) (price : Q) :
  pricing_lookup type = PriceNumber price → Qeq_bool price 0 = false.
Proof.
  unfold pricing_lookup, pricing. simpl.
  repeat (case_decide; [intros [= <-]; reflexivity|]).
  by destruct (bool_decide _).
Qed.

(** [createAnalysisRequest] for a priced type the schema accepts, up to the
    answer of the gateway. *)
Lemma createAnalysisRequest_run (E : Env) (userId type : string)
    (symbol : option string) (price : Q) (s : State) :
  userId ≠ "" →
  pricing_lookup type = PriceNumber price →
  schema_accepts_type E type = true →
  let aid := new_id (analyses s) in
  let pid := new_id (payments s) in
  let outcome :=
    x402_post E (log s ++ [EvAnalysisCreate aid; EvPaymentCreate pid])%list
      pid (WalletService.js_mul E price 100) in
  AnalysisController.createAnalysisRequest E (Some userId) type symbol s
  = match outcome with
    | Some x =>
        (Ok (mkResponse 200 (BodyCreated aid pid price)),
         mkState (<[pid := pending_payment userId price (Some x)]> (payments s))
           (<[aid := requested_analysis userId type symbol price (Some pid)]>
              (analyses s))
           (distributions s) (stakeholders s) (platformWallet s)
           (log s ++ EvAnalysisCreate aid
            :: payment_request_events E pid price outcome
            ++ [EvPaymentUpdate pid; EvAnalysisUpdate aid None])%list)
    | None =>
        (Ok (mkResponse 500 (BodyError "Failed to create analysis request")),
         mkState (<[pid := pending_payment userId price None]> (payments s))
           (<[aid := requested_analysis userId type symbol price None]>
              (analyses s))
           (distributions s) (stakeholders s) (platformWallet s)
           (log s ++ EvAnalysisCreate aid
            :: payment_request_events E pid price outcome)%list)
    end.
Proof.
  intros Hu Hprice Hschema aid pid outcome.
  unfold AnalysisController.createAnalysisRequest, try_catch. simpl.
  rewrite bool_decide_eq_false_2 by done. simpl.
  rewrite Hprice, (pricing_lookup_nonzero type price Hprice), Hschema. simpl.
  run. fold aid.
  rewrite createPayment_run. simpl. fold pid.
  rewrite <- app_assoc. simpl. fold outcome.
  destruct outcome as [x|]; simpl.
  - unfold analysis_update. run. rewrite lookup_insert_eq. simpl.
    rewrite insert_insert_eq.
    unfold requested_analysis, set_paymentId. simpl.
    by rewrite <- !app_assoc.
  - unfold requested_analysis. by rewrite <- !app_assoc.
Qed.

(** X12. For a type that is a key of the pricing table and that the schema
    accepts, and a gateway that accepts the intent, [createAnalysisRequest]
    answers 200 with the two new ids and the table price, having stored the
    analysis in PENDING_PAYMENT with that price and the requester as owner,
    linked to a payment that is PENDING for the same amount and owner. *)
Theorem createAnalysisRequest_success (E : Env) (userId type : string)
    (symbol : option string) (price : Q) (s : State) (x : string) :
  userId ≠ "" →
  pricing_lookup type = PriceNumber price →
  schema_accepts_type E type = true →
  let aid := new_id (analyses s) in
  let pid := new_id (payments s) in
  x402_post E (log s ++ [EvAnalysisCreate aid; EvPaymentCreate pid])%list
    pid (WalletService.js_mul E price 100) = Some x →
  let r :=
    AnalysisController.createAnalysisRequest E (Some userId) type symbol s in
  result_of r = Ok (mkResponse 200 (BodyCreated aid pid price)) ∧
  analyses s !! aid = None ∧
  payments s !! pid = None ∧
  analyses (state_of r) !! aid
  = Some (requested_analysis userId type symbol price (Some pid)) ∧
  payments (state_of r) !! pid
  = Some (pending_payment userId price (Some x)) ∧
  distributions (state_of r) = distributions s.
Proof.
  intros Hu Hprice Hschema aid pid Hpost r. unfold r.
  rewrite (createAnalysisRequest_run E userId type symbol price s Hu Hprice
             Hschema).
  fold aid pid. rewrite Hpost. simpl.
  split; [done|]. split; [apply new_id_fresh|]. split; [apply new_id_fresh|].
  split; [apply lookup_insert_eq|]. split; [apply lookup_insert_eq|done].
Qed.

Lemma createAnalysisRequest_success_witness :
  let r := AnalysisController.createAnalysisRequest demoEnv (Some "bob")
             "technicalAnalysis" (Some "ETH") demoState in
  result_of r = Ok (mkResponse 200 (BodyCreated "0" "0" 25)) ∧
  analyses (state_of r) !! "0"
  = Some (requested_analysis "bob" "technicalAnalysis" (Some "ETH") 25
            (Some "0")).
Proof.
  destruct (createAnalysisRequest_success demoEnv "bob" "technicalAnalysis"
              (Some "ETH") 25 demoState "x402-0")
    as (Hres & _ & _ & Han & _).
  - discriminate.
  - reflexivity.
  - reflexivity.
  - reflexivity.
  - split; [exact Hres | exact Han].
Defined.

(** X13. When the gateway refuses the intent the request is answered with
    500 "Failed to create analysis request", and both rows stay behind: the
    analysis in PENDING_PAYMENT with no payment linked, and a PENDING
    payment with no gateway reference. *)
Theorem createAnalysisRequest_gateway_failure (E : Env) (userId type : string)
    (symbol : option string) (price : Q) (s : State) :
  userId ≠ "" →
  pricing_lookup type = PriceNumber price →
  schema_accepts_type E type = true →
  let aid := new_id (analyses s) in
  let pid := new_id (payments s) in
  x402_post E (log s ++ [EvAnalysisCreate aid; EvPaymentCreate pid])%list
    pid (WalletService.js_mul E price 100) = None →
  let r :=
    AnalysisController.createAnalysisRequest E (Some userId) type symbol s in
  result_of r
  = Ok (mkResponse 500 (BodyError "Failed to create analysis request")) ∧
  analyses (state_of r) !! aid
  = Some (requested_analysis userId type symbol price None) ∧
  payments (state_of r) !! pid = Some (pending_payment userId price None).
Proof.
  intros Hu Hprice Hschema aid pid Hpost r. unfold r.
  rewrite (createAnalysisRequest_run E userId type symbol price s Hu Hprice
             Hschema).
  fold aid pid. rewrite Hpost. simpl.
  split; [done|]. split; apply lookup_insert_eq.
Qed.

Lemma createAnalysisRequest_gateway_failure_witness :
  let r := AnalysisController.createAnalysisRequest offlineEnv (Some "bob")
             "technicalAnalysis" (Some "ETH") demoState in
  result_of r
  = Ok (mkResponse 500 (BodyError "Failed to create analysis request")) ∧
  analyses (state_of r) !! "0"
  = Some (requested_analysis "bob" "technicalAnalysis" (Some "ETH") 25 None).
Proof.
  destruct (createAnalysisRequest_gateway_failure offlineEnv "bob"
              "technicalAnalysis" (Some "ETH") 25 demoState)
    as (Hres & Han & _).
  - discriminate.
  - reflexivity.
  - reflexivity.
  - reflexivity.
  - split; [exact Hres | exact Han].
Defined.

(** X14. Through the analysis router no request ever creates anything: for
    every credential, type and symbol the state is unchanged and the answer
    is a 400 or a 401. The validation admits only the six upper-case
    categories, and none of them is a key of the pricing table. *)
Theorem create_analysis_route_never_creates (E : Env) (c : Credentials)
    (type : string) (symbol : option string) (s : State) :
  let r := Routes.create_analysis E c type symbol s in
  state_of r = s ∧
  ∃ resp, result_of r = Ok resp ∧
          (statusCode resp = 400%nat ∨ statusCode resp = 401%nat).
Proof.
  unfold Routes.create_analysis, authenticate.
  destruct c as [| | |id]; simpl; try (split; [done|]; eexists; split;
                                       [reflexivity|by right]).
  unfold Routes.validate_createAnalysis.
  destruct (bool_decide (type ∈ analysis_types)) eqn:Htype; simpl.
  2:{ split; [done|]. eexists. split; [reflexivity|by left]. }
  destruct (truthy symbol); simpl.
  2:{ split; [done|]. eexists. split; [reflexivity|by left]. }
  apply bool_decide_eq_true in Htype.
  unfold asyncHandler, AnalysisController.createAnalysisRequest, try_catch.
  simpl. destruct (bool_decide (id = "")); simpl.
  - split; [done|]. eexists. split; [reflexivity|by right].
  - rewrite (analysis_types_unpriced type Htype). simpl.
    split; [done|]. eexists. split; [reflexivity|by left].
Qed.

(** X15. Round trip of a created request: right after a successful
    [createAnalysisRequest] the owner gets the analysis back from
    [getAnalysis] under the returned id, in PENDING_PAYMENT and together
    with its PENDING payment; any other user gets the 404; and
    [processAnalysis] refuses it until the payment completes. *)
Theorem created_request_round_trip (E : Env) (now : Z)
    (userId other type : string) (symbol : option string) (price : Q)
    (s : State) (x : string) :
  userId ≠ "" →
  other ≠ userId →
  pricing_lookup type = PriceNumber price →
  schema_accepts_type E type = true →
  let aid := new_id (analyses s) in
  let pid := new_id (payments s) in
  x402_post E (log s ++ [EvAnalysisCreate aid; EvPaymentCreate pid])%list
    pid (WalletService.js_mul E price 100) = Some x →
  let s' :=
    state_of (AnalysisController.createAnalysisRequest E (Some userId) type
                symbol s) in
  result_of (AnalysisController.getAnalysis aid (Some userId) s')
  = Ok (mkResponse 200
          (BodyAnalysis aid
             (requested_analysis userId type symbol price (Some pid))
             (Some (pending_payment userId price (Some x))))) ∧
  result_of (AnalysisController.getAnalysis aid (Some other) s')
  = Ok analysis_not_found ∧
  AnalysisController.processAnalysis E now aid s'
  = (Ok payment_not_completed, s').
Proof.
  intros Hu Hother Hprice Hschema aid pid Hpost s'.
  assert (Han : analyses s' !! aid
                = Some (requested_analysis userId type symbol price (Some pid))).
  { unfold s'.
    rewrite (createAnalysisRequest_run E userId type symbol price s Hu Hprice
               Hschema).
    fold aid pid. rewrite Hpost. simpl. apply lookup_insert_eq. }
  assert (Hpay : payments s' !! pid
                 = Some (pending_payment userId price (Some x))).
  { unfold s'.
    rewrite (createAnalysisRequest_run E userId type symbol price s Hu Hprice
               Hschema).
    fold aid pid. rewrite Hpost. simpl. apply lookup_insert_eq. }
  split; [|split].
  - unfold AnalysisController.getAnalysis, try_catch. run. rewrite Han. simpl.
    rewrite decide_True by done. simpl.
    unfold payment_of_analysis. simpl. by rewrite Hpay.
  - unfold AnalysisController.getAnalysis, try_catch. run. rewrite Han. simpl.
    rewrite decide_False; [done|]. intros Heq. by apply Hother.
  - unfold AnalysisController.processAnalysis. apply try_catch_Ok. run.
    rewrite Han. unfold payment_of_analysis. simpl. rewrite Hpay. reflexivity.
Qed.

Lemma created_request_round_trip_witness :
  let s' :=
    state_of (AnalysisController.createAnalysisRequest demoEnv (Some "bob")
                "technicalAnalysis" (Some "ETH") demoState) in
  result_of (AnalysisController.getAnalysis "0" (Some "alice") s')
  = Ok analysis_not_found ∧
  AnalysisController.processAnalysis demoEnv 1000 "0" s'
  = (Ok payment_not_completed, s').
Proof.
  destruct (created_request_round_trip demoEnv 1000 "bob" "alice"
              "technicalAnalysis" (Some "ETH") 25 demoState "x402-0")
    as (_ & Hother & Hgate).
  - discriminate.
  - discriminate.
  - reflexivity.
  - reflexivity.
  - reflexivity.
  - split; [exact Hother | exact Hgate].
Defined.

(** ** [processAnalysis] past the payment gate *)



(** X17. When the payment is COMPLETED but market data or one of the two
    generation calls fails, the route answers 500 "Failed to process
    analysis" and the analysis is left FAILED, whatever it was before (a
    previously COMPLETED one keeps its old result under the FAILED status);
    payments are untouched. *)
Theorem process_analysis_failure (E : Env) (now : Z) (requester aid : string)
    (s : State) (a : Analysis) :
  analyses s !! aid = Some a →
  pay_status <$> payment_of_analysis s a = Some COMPLETED →
  (∀ evs, fetchCryptoData E evs (symbol_of a) = None) ∨
  (∀ evs, fetchMarketData E evs = None) ∨
  (∀ evs, bedrockAnalysis E evs (an_type a) = None) ∨
  (∀ evs text, bedrockSummary E evs text = None) →
  let r := Routes.process_analysis E now (Authenticated requester) aid s in
  result_of r = Ok (mkResponse 500 (BodyError "Failed to process analysis")) ∧
  analyses (state_of r) = <[aid := with_status A_FAILED a]> (analyses s) ∧
  payments (state_of r) = payments s.
Proof.
  intros Ha Hpay Hfail r. unfold r.
  unfold Routes.process_analysis, authenticate, asyncHandler,
    AnalysisController.processAnalysis, try_catch.
  run. rewrite Ha. rewrite decide_False by (intros Hne; by apply Hne).
  fold (symbol_of a).
  unfold AnalysisController.fetchBoth, AnalysisController.getFearGreedIndex,
    AnalysisController.generateAnalysis,
    AnalysisController.generateExecutiveSummary, analysis_update,
    analysis_update_status.
  assert (Hnot : ∀ c m text summary evs1 evs2 evs3 evs4,
             fetchCryptoData E evs1 (symbol_of a) = Some c →
             fetchMarketData E evs2 = Some m →
             bedrockAnalysis E evs3 (an_type a) = Some text →
             bedrockSummary E evs4 text = Some summary → False).
  { intros c m text summary evs1 evs2 evs3 evs4 Hc Hm Htext Hsum.
    destruct Hfail as [H|[H|[H|H]]].
    - by rewrite H in Hc.
    - by rewrite H in Hm.
    - by rewrite H in Htext.
    - by rewrite H in Hsum. }
  destruct (decide (an_status a ≠ A_PROCESSING)) as [Hst|Hst]; run;
    rewrite ?Ha; simpl.
  - destruct (fetchCryptoData E _ _) as [c|] eqn:Hc; simpl.
    2:{ destruct (fetchMarketData E _); simpl;
          [|destruct (cryptoDataRejectsFirst E _); simpl];
          rewrite lookup_insert_eq; simpl; by rewrite insert_insert_eq. }
    destruct (fetchMarketData E _) as [m|] eqn:Hm; simpl;
      [|rewrite lookup_insert_eq; simpl; by rewrite insert_insert_eq].
    destruct (bedrockAnalysis E _ _) as [text|] eqn:Htext; simpl;
      [|rewrite lookup_insert_eq; simpl; by rewrite insert_insert_eq].
    destruct (bedrockSummary E _ _) as [summary|] eqn:Hsum; simpl;
      [|rewrite lookup_insert_eq; simpl; by rewrite insert_insert_eq].
    destruct (Hnot _ _ _ _ _ _ _ _ Hc Hm Htext Hsum).
  - destruct (fetchCryptoData E _ _) as [c|] eqn:Hc; simpl.
    2:{ destruct (fetchMarketData E _); simpl;
          [|destruct (cryptoDataRejectsFirst E _); simpl]; by rewrite Ha. }
    destruct (fetchMarketData E _) as [m|] eqn:Hm; simpl; [|by rewrite Ha].
    destruct (bedrockAnalysis E _ _) as [text|] eqn:Htext; simpl;
      [|by rewrite Ha].
    destruct (bedrockSummary E _ _) as [summary|] eqn:Hsum; simpl;
      [|by rewrite Ha].
    destruct (Hnot _ _ _ _ _ _ _ _ Hc Hm Htext Hsum).
Qed.

Lemma process_analysis_failure_witness :
  let r := Routes.process_analysis offlineEnv 2000 (Authenticated "alice")
             "a1" paidState in
  result_of r = Ok (mkResponse 500 (BodyError "Failed to process analysis")) ∧
  an_status <$> analyses (state_of r) !! "a1" = Some A_FAILED.
Proof.
  destruct (process_analysis_failure offlineEnv 2000 "alice" "a1" paidState
              demoAnalysis) as (Hres & Han & _).
  - reflexivity.
  - reflexivity.
  - left. reflexivity.
  - split; [exact Hres|]. rewrite Han. reflexivity.
Defined.

(** ** The revenue total across webhook deliveries *)

Lemma Qsum_Permutation (l k : list Q) : l ≡ₚ k → (Qsum l == Qsum k)%Q.
Proof.
  induction 1 as [|x l k _ IH|x y l|l k m _ IH1 _ IH2]; simpl.
  - reflexivity.
  - by rewrite IH.
  - ring.
  - by rewrite IH1.
Qed.

Lemma totalRevenue_shares (s : State) :
  (totalRevenue s == revenue_of (map_to_list (payments s)))%Q.
Proof.
  unfold totalRevenue, completed_payments, revenue_of.
  induction (map_to_list (payments s)) as [|[k p] l IH]; [reflexivity|].
  change (Qsum (map (λ kv, revenue_share (snd kv)) ((k, p) :: l)))
    with (revenue_share p + Qsum (map (λ kv, revenue_share (snd kv)) l))%Q.
  rewrite <- IH. unfold revenue_share.
  destruct (decide (pay_status p = COMPLETED)) as [Hc|Hc].
  - rewrite filter_cons_True by done. reflexivity.
  - rewrite filter_cons_False by done. ring.
Qed.

(** Replacing one row moves the total by the difference of the shares. *)
Lemma revenue_insert (m : gmap string Payment) (id : string)
    (p p' : Payment) :
  m !! id = Some p →
  (revenue_of (map_to_list (<[id := p']> m)) + revenue_share p
   == revenue_of (map_to_list m) + revenue_share p')%Q.
Proof.
  intros Hp. unfold revenue_of.
  assert (H1 : map_to_list (<[id := p']> m)
               ≡ₚ (id, p') :: map_to_list (delete id m)).
  { rewrite <- insert_delete_eq. apply map_to_list_insert.
    apply lookup_delete_eq. }
  assert (H2 : map_to_list m ≡ₚ (id, p) :: map_to_list (delete id m)).
  { rewrite <- (insert_delete_id m id p Hp) at 1. apply map_to_list_insert.
    apply lookup_delete_eq. }
  rewrite (Qsum_Permutation _ _ (fmap_Permutation _ _ _ H1)).
  rewrite (Qsum_Permutation _ _ (fmap_Permutation _ _ _ H2)).
  simpl. ring.
Qed.

Lemma completed_delivery_payments (E : Env) (now : Z) (id h : string)
    (signature : option string) (s : State) (p : Payment) :
  payments s !! id = Some p →
  payments
    (state_of
       (PaymentService.handlePaymentWebhook E now
          (mkPayload (JString id) (JString "completed") (JString h))
          signature s))
  = <[id := completed_payment h now p]> (payments s).
Proof.
  intros Hp.
  rewrite (handlePaymentWebhook_completed_run E now id h signature s p Hp).
  destruct (distributePayment_frame E id
              (WalletService.toNumber E (pay_amount p))
              (after_completion_hook id
                 (after_payment_update id (completed_payment h now p) s)))
    as [-> _].
  by rewrite after_completion_hook_payments.
Qed.

(** X18. The revenue total of the dashboard follows the webhook: a
    "completed" notification for a payment that is not yet COMPLETED raises
    it by exactly the payment's amount, a repeated "completed" notification
    leaves it where it is, and a "failed" notification for a COMPLETED
    payment takes the amount out again. *)
Theorem totalRevenue_follows_webhook (E : Env) (now : Z) (id h : string)
    (hash : JsVal) (signature : option string) (s : State) (p : Payment) :
  payments s !! id = Some p →
  let completed :=
    state_of (PaymentService.handlePaymentWebhook E now
                (mkPayload (JString id) (JString "completed") (JString h))
                signature s) in
  let failed :=
    state_of (PaymentService.handlePaymentWebhook E now
                (mkPayload (JString id) (JString "failed") hash)
                signature s) in
  (pay_status p ≠ COMPLETED →
   (totalRevenue completed == totalRevenue s + pay_amount p)%Q ∧
   (totalRevenue failed == totalRevenue s)%Q) ∧
  (pay_status p = COMPLETED →
   (totalRevenue completed == totalRevenue s)%Q ∧
   (totalRevenue failed == totalRevenue s - pay_amount p)%Q).
Proof.
  intros Hp completed failed.
  assert (Hc : (totalRevenue completed + revenue_share p
                == totalRevenue s + pay_amount p)%Q).
  { rewrite !totalRevenue_shares. unfold completed.
    rewrite (completed_delivery_payments E now id h signature s p Hp).
    by rewrite (revenue_insert _ id p (completed_payment h now p) Hp). }
  assert (Hf : (totalRevenue failed + revenue_share p == totalRevenue s)%Q).
  { rewrite !totalRevenue_shares. unfold failed.
    rewrite (handlePaymentWebhook_failed_run E now id hash signature s p Hp).
    simpl.
    rewrite (revenue_insert _ id p (failed_data p) Hp).
    assert (revenue_share (failed_data p) = 0%Q) as -> by reflexivity.
    ring. }
  unfold revenue_share in Hc, Hf.
  split; intros Hst.
  - rewrite decide_False in Hc, Hf by done. split; lra.
  - rewrite decide_True in Hc, Hf by done. split; lra.
Qed.

Lemma totalRevenue_follows_webhook_witness :
  (totalRevenue
     (state_of (PaymentService.handlePaymentWebhook demoEnv 1000 demoPayload
                  None demoState))
   == totalRevenue demoState + 25)%Q.
Proof.
  destruct (totalRevenue_follows_webhook demoEnv 1000 "p1" "0xabc" JUndefined
              None demoState demoPayment) as [Hpending _].
  - reflexivity.
  - destruct Hpending as [Hc _]; [discriminate|]. exact Hc.
Defined.

(** * The routes of app.ts *)

(** X19. The two webhook implementations against an existing payment. On a
    "completed" notification the route of app.ts writes the same payment
    row as the payment service and answers 200, but runs neither the
    completion hook nor the distribution: analyses and distribution rows
    stay as they are. On a "failed" notification it answers 200 and changes
    nothing, where the payment service sets the payment to FAILED. *)
Theorem app_webhook_against_service (E : Env) (now : Z) (id h : string)
    (hash : JsVal) (signature : option string) (s : State) (p : Payment) :
  payments s !! id = Some p →
  let completed := mkPayload (JString id) (JString "completed") (JString h) in
  let failed := mkPayload (JString id) (JString "failed") hash in
  App.webhook now completed s
  = (Ok (mkAppResponse 200 AppReceived),
     after_payment_update id (completed_payment h now p) s) ∧
  payments (state_of (App.webhook now completed s))
  = payments (state_of (PaymentService.handlePaymentWebhook E now completed
                          signature s)) ∧
  App.webhook now failed s = (Ok (mkAppResponse 200 AppReceived), s) ∧
  payments (state_of (PaymentService.handlePaymentWebhook E now failed
                        signature s)) !! id
  = Some (failed_data p).
Proof.
  intros Hp completed failed.
  assert (Hc : App.webhook now completed s
               = (Ok (mkAppResponse 200 AppReceived),
                  after_payment_update id (completed_payment h now p) s)).
  { unfold App.webhook, try_catch, payment_update. run. by rewrite Hp. }
  split; [exact Hc|]. split; [|split].
  - rewrite Hc. unfold completed.
    by rewrite (completed_delivery_payments E now id h signature s p Hp).
  - reflexivity.
  - unfold failed.
    rewrite (handlePaymentWebhook_failed_run E now id hash signature s p Hp).
    simpl. apply lookup_insert_eq.
Qed.

Lemma app_webhook_against_service_witness :
  App.webhook 1000 demoPayload demoState
  = (Ok (mkAppResponse 200 AppReceived),
     after_payment_update "p1" (completed_payment "0xabc" 1000 demoPayment)
       demoState).
Proof.
  apply (app_webhook_against_service demoEnv 1000 "p1" "0xabc" JUndefined None
           demoState demoPayment).
  reflexivity.
Defined.

(** X20. The demo completion route lets any authenticated user mark any
    existing payment COMPLETED, whoever owns it and whatever its status,
    with no gateway involved: the row gets the random hash and the time of
    the request, nothing else is written, and for every analysis bound to
    the payment the gate of [processAnalysis] is open afterwards. *)
Theorem app_complete_payment_opens_gate (now : Z) (hash requester id : string)
    (s : State) (p : Payment) :
  payments s !! id = Some p →
  let r := App.complete_payment now hash (Authenticated requester) id s in
  r = (Ok (mkAppResponse 200
             (AppCompleted id (completed_payment hash now p))),
       after_payment_update id (completed_payment hash now p) s) ∧
  ∀ aid a,
    analyses s !! aid = Some a →
    an_paymentId a = Some id →
    analyses (state_of r) !! aid = Some a ∧
    pay_status <$> payment_of_analysis (state_of r) a = Some COMPLETED.
Proof.
  intros Hp r.
  assert (Hr : r = (Ok (mkAppResponse 200
                          (AppCompleted id (completed_payment hash now p))),
                    after_payment_update id (completed_payment hash now p) s)).
  { unfold r, App.complete_payment, App.authenticate, try_catch,
      payment_update.
    run. by rewrite Hp. }
  split; [exact Hr|]. intros aid a Ha Hlink. rewrite Hr. simpl.
  split; [exact Ha|].
  unfold payment_of_analysis. simpl. rewrite Hlink. simpl.
  by rewrite lookup_insert_eq.
Qed.

Lemma app_complete_payment_opens_gate_witness :
  pay_userId demoPayment ≠ "mallory" ∧
  pay_status <$>
    payment_of_analysis
      (state_of (App.complete_payment 1000 "0x5f3a" (Authenticated "mallory")
                   "p1" demoState))
      demoAnalysis
  = Some COMPLETED.
Proof.
  split; [discriminate|].
  destruct (app_complete_payment_opens_gate 1000 "0x5f3a" "mallory" "p1"
              demoState demoPayment) as [_ Hgate].
  - reflexivity.
  - destruct (Hgate "a1" demoAnalysis) as [_ Hopen];
      [reflexivity | reflexivity | exact Hopen].
Defined.

(** X21. The create route of app.ts has the lookup of the controller: for
    each of the six categories the types endpoint advertises it answers 400
    "Invalid analysis type" and writes nothing. *)
Theorem app_create_rejects_categories (E : Env) (userId type : string)
    (symbol : option string) (s : State) :
  userId ≠ "" →
  type ∈ analysis_types →
  App.create_analysis E (Authenticated userId) type symbol s
  = (Ok (mkAppResponse 400 (AppError "Invalid analysis type")), s).
Proof.
  intros Hu Htype. unfold App.create_analysis, App.authenticate, try_catch.
  simpl. rewrite bool_decide_eq_false_2 by done. simpl.
  by rewrite (analysis_types_unpriced type Htype).
Qed.

Lemma app_create_rejects_categories_witness :
  App.create_analysis demoEnv (Authenticated "alice") "BASIC_OVERVIEW"
    (Some "BTC") demoState
  = (Ok (mkAppResponse 400 (AppError "Invalid analysis type")), demoState).
Proof.
  apply (app_create_rejects_categories demoEnv "alice" "BASIC_OVERVIEW"
           (Some "BTC") demoState).
  - discriminate.
  - apply (bool_decide_unpack _). vm_compute. exact I.
Defined.

(** X22. For a type that is a key of the pricing table and that the schema
    accepts, the create route of app.ts stores the analysis in
    PENDING_PAYMENT and a PENDING payment of the table price, links them,
    and answers 200, without any call to the payment gateway: the payment
    has no gateway reference and the log of the run holds no gateway
    event. *)
Theorem app_create_without_gateway (E : Env) (userId type : string)
    (symbol : option string) (price : Q) (s : State) :
  userId ≠ "" →
  pricing_lookup type = PriceNumber price →
  schema_accepts_type E type = true →
  let aid := new_id (analyses s) in
  let pid := new_id (payments s) in
  let r := App.create_analysis E (Authenticated userId) type symbol s in
  result_of r = Ok (mkAppResponse 200 (AppCreated aid pid price)) ∧
  analyses (state_of r)
  = <[aid := requested_analysis userId type symbol price (Some pid)]>
      (analyses s) ∧
  payments (state_of r)
  = <[pid := pending_payment userId price None]> (payments s) ∧
  new_events s (state_of r)
  = [EvAnalysisCreate aid; EvPaymentCreate pid; EvAnalysisUpdate aid None].
Proof.
  intros Hu Hprice Hschema aid pid r. unfold r.
  unfold App.create_analysis, App.authenticate, try_catch. simpl.
  rewrite bool_decide_eq_false_2 by done. simpl.
  rewrite Hprice, (pricing_lookup_nonzero type price Hprice), Hschema. simpl.
  run. fold aid pid. unfold analysis_update. run.
  rewrite lookup_insert_eq. simpl. rewrite insert_insert_eq.
  split; [done|]. split; [done|]. split; [done|].
  apply new_events_app. by rewrite <- !app_assoc.
Qed.

Lemma app_create_without_gateway_witness :
  result_of (App.create_analysis offlineEnv (Authenticated "bob")
               "technicalAnalysis" (Some "ETH") demoState)
  = Ok (mkAppResponse 200 (AppCreated "0" "0" 25)).
Proof.
  apply (app_create_without_gateway offlineEnv "bob" "technicalAnalysis"
           (Some "ETH") 25 demoState).
  - discriminate.
  - reflexivity.
  - reflexivity.
Defined.

(** * The platform wallet and the wallet routes *)



(** X24. [getPlatformWalletAddress] creates the platform wallet only when
    none is installed: over two calls in a row the wallet created by the
    first stays in place, whatever the custodian would hand out at the
    second. [initializePlatformWallet] has no such check: a second
    successful call replaces the wallet of the first. *)
Theorem platform_wallet_created_lazily (w1 w2 : string)
    (created2 : Res string) (addresses1 addresses2 : Res (list string))
    (s : State) :
  platformWallet s = None →
  platformWallet
    (state_of
       (PlatformWallet.getPlatformWalletAddress created2 addresses2
          (state_of
             (PlatformWallet.getPlatformWalletAddress (Ok w1) addresses1 s))))
  = Some w1 ∧
  platformWallet
    (state_of
       (PlatformWallet.initializePlatformWallet (Ok w2)
          (state_of (PlatformWallet.initializePlatformWallet (Ok w1) s))))
  = Some w2.
Proof.
  intros Hw. split; [|reflexivity].
  assert (H1 : platformWallet
                 (state_of (PlatformWallet.getPlatformWalletAddress (Ok w1)
                              addresses1 s)) = Some w1).
  { unfold PlatformWallet.getPlatformWalletAddress. run. rewrite Hw. simpl.
    by destruct addresses1 as [[|a l]|e]. }
  unfold PlatformWallet.getPlatformWalletAddress at 1. run. rewrite H1. simpl.
  by destruct addresses2 as [[|a l]|e].
Qed.

Lemma platform_wallet_created_lazily_witness :
  platformWallet
    (state_of
       (PlatformWallet.getPlatformWalletAddress (Ok "second") (Ok ["0xb"])
          (state_of
             (PlatformWallet.getPlatformWalletAddress (Ok "first")
                (Ok ["0xa"]) demoState))))
  = Some "first".
Proof.
  apply (platform_wallet_created_lazily "first" "second" (Ok "second")
           (Ok ["0xa"]) (Ok ["0xb"]) demoState).
  reflexivity.
Defined.

(** X25. Through the wallet route a user is bound to a custodial wallet at
    most once: for a user without wallet a successful creation answers 200
    and stores the new id on that user alone, and from then on every further
    create request of that user is answered 400 "User already has a wallet"
    with the users table unchanged, whatever the custodian would create. *)
Theorem wallet_bound_once (id w : string) (u : UserRow)
    (users : gmap string UserRow) (created2 : Res string) :
  users !! id = Some u →
  truthy (user_walletId u) = false →
  w ≠ "" →
  let r1 := WalletRoutes.create (Ok w) (TokenOf id) users in
  fst r1 = mkWalletResponse 200 (WalletCreated w) ∧
  snd r1 = <[id := mkUser (user_email u) (Some w)]> users ∧
  WalletRoutes.create created2 (TokenOf id) (snd r1)
  = (mkWalletResponse 400 (WalletError "User already has a wallet"), snd r1).
Proof.
  intros Hu Hnone Hw r1.
  assert (Hr1 : r1 = (mkWalletResponse 200 (WalletCreated w),
                      <[id := mkUser (user_email u) (Some w)]> users)).
  { unfold r1, WalletRoutes.create, WalletRoutes.authenticate,
      WalletRoutes.createUserWallet.
    rewrite Hu. simpl. rewrite Hnone. by rewrite Hu. }
  rewrite Hr1. simpl. split; [done|]. split; [done|].
  unfold WalletRoutes.create, WalletRoutes.authenticate.
  rewrite lookup_insert_eq. simpl.
  by rewrite bool_decide_eq_false_2.
Qed.

Lemma wallet_bound_once_witness :
  let users : gmap string UserRow :=
    {[ "alice" := mkUser "alice@example.org" None ]} in
  WalletRoutes.create (Ok "w-2") (TokenOf "alice")
    (snd (WalletRoutes.create (Ok "w-1") (TokenOf "alice") users))
  = (mkWalletResponse 400 (WalletError "User already has a wallet"),
     {[ "alice" := mkUser "alice@example.org" (Some "w-1") ]}).
Proof.
  intros users.
  destruct (wallet_bound_once "alice" "w-1" (mkUser "alice@example.org" None)
              users (Ok "w-2")) as (_ & Husers & Hsecond).
  - reflexivity.
  - reflexivity.
  - discriminate.
  - rewrite Hsecond. by f_equal.
Defined.

(** X26. The balance route serves a wallet to nobody but the user bound to
    it: a 200 answer implies that the token names an existing user whose
    wallet id is the one in the path. A user without wallet is refused for
    every path. *)
Theorem balance_owner_only (balances : Res (list (string * string)))
    (t : Token) (walletId : string) (users : gmap string UserRow) :
  wallet_status (WalletRoutes.balance balances t walletId users) = 200%nat →
  ∃ id u, t = TokenOf id ∧ users !! id = Some u ∧
          user_walletId u = Some walletId.
Proof.
  unfold WalletRoutes.balance, WalletRoutes.authenticate.
  destruct t as [| |id]; simpl; try discriminate.
  destruct (users !! id) as [u|] eqn:Hu; simpl; [|discriminate].
  destruct (decide (user_walletId u ≠ Some walletId)) as [Hne|Heq]; simpl;
    [discriminate|].
  intros _. exists id, u. split; [done|]. split; [done|].
  by destruct (decide (user_walletId u = Some walletId)).
Qed.

Lemma balance_owner_only_witness :
  ∃ id u, TokenOf "alice" = TokenOf id ∧
          ({[ "alice" := mkUser "alice@example.org" (Some "w-1") ]}
             : gmap string UserRow) !! id = Some u ∧
          user_walletId u = Some "w-1".
Proof.
  apply (balance_owner_only (Ok [("USDC", "12.50")]) (TokenOf "alice") "w-1"
           {[ "alice" := mkUser "alice@example.org" (Some "w-1") ]}).
  reflexivity.
Defined.

(** * [validateEmail] *)

Example validateEmail_examples :
  validateEmail (code_units "alice@example.org") = true ∧
  validateEmail (code_units "a@b..c") = true ∧
  validateEmail (code_units "alice@example") = false ∧
  validateEmail (code_units "alice@.org") = false ∧
  validateEmail (code_units "alice@example.") = false ∧
  validateEmail (code_units "@example.org") = false ∧
  validateEmail (code_units "a@b@example.org") = false ∧
  validateEmail (code_units "alice smith@example.org") = false ∧
  validateEmail (code_units "") = false.
Proof. vm_compute. repeat split. Qed.

Lemma plus_class_inv p w :
  matches (Plus (Class p)) w → w ≠ [] ∧ forallb p w = true.
Proof.
  remember (Plus (Class p)) as r eqn:Hr. intros H.
  induction H as [| |r w H _|r w1 w2 H1 _ H2 IH|]; inversion Hr; subst.
  - inversion H; subst. split; [done|]. simpl. by rewrite andb_true_r.
  - destruct (IH eq_refl) as [_ Hall]. inversion H1; subst.
    split; [done|]. simpl. by apply andb_true_iff.
Qed.

Lemma plus_class_intro p w :
  w ≠ [] → forallb p w = true → matches (Plus (Class p)) w.
Proof.
  induction w as [|c w IH]; [done|]. intros _ H.
  simpl in H. apply andb_true_iff in H as [Hc Hw].
  destruct w as [|c' w'].
  - apply matches_plus_once. by apply matches_class.
  - change (c :: c' :: w') with ([c] ++ c' :: w')%list.
    apply matches_plus_more; [by apply matches_class|by apply IH].
Qed.

(** The words of the regular expression. *)
Lemma email_regex_words s :
  matches email_regex s ↔
  ∃ l d1 d2,
    s = (l ++ 64%N :: d1 ++ 46%N :: d2)%list ∧
    (l ≠ [] ∧ forallb email_char l = true) ∧
    (d1 ≠ [] ∧ forallb email_char d1 = true) ∧
    (d2 ≠ [] ∧ forallb email_char d2 = true).
Proof.
  split.
  - intros H. unfold email_regex in H.
    inversion H as [| | | |? ? l r1 Hl H1]; subst; clear H.
    inversion H1 as [| | | |? ? a r2 Ha H2]; subst; clear H1.
    inversion Ha; subst; clear Ha.
    inversion H2 as [| | | |? ? d1 r3 Hd1 H3]; subst; clear H2.
    inversion H3 as [| | | |? ? b d2 Hb Hd2]; subst; clear H3.
    inversion Hb; subst; clear Hb.
    exists l, d1, d2. split; [reflexivity|].
    auto using plus_class_inv.
  - intros (l & d1 & d2 & -> & [Hl Hl'] & [H1 H1'] & [H2 H2']).
    unfold email_regex.
    apply matches_seq; [by apply plus_class_intro|].
    apply (matches_seq (Lit 64) _ [64%N]); [apply matches_lit|].
    apply matches_seq; [by apply plus_class_intro|].
    apply (matches_seq (Lit 46) _ [46%N]); [apply matches_lit|].
    by apply plus_class_intro.
Qed.

Lemma email_char_not_at l : forallb email_char l = true → 64%N ∉ l.
Proof.
  intros H Hin. apply list_elem_of_In in Hin.
  rewrite forallb_forall in H. specialize (H _ Hin). discriminate H.
Qed.

Lemma split_at_first c l rest :
  c ∉ l → split_at c (l ++ c :: rest)%list = Some (l, rest).
Proof.
  induction l as [|x l IH]; intros Hnot; simpl.
  - by rewrite N.eqb_refl.
  - apply not_elem_of_cons in Hnot as [Hx Hl].
    destruct (N.eqb_spec x c) as [->|_]; [done|]. by rewrite IH.
Qed.

Lemma split_at_Some c w l rest :
  split_at c w = Some (l, rest) → w = (l ++ c :: rest)%list.
Proof.
  revert l. induction w as [|x w IH]; intros l H; simpl in H; [done|].
  destruct (N.eqb_spec x c) as [->|_].
  - by inversion H.
  - destruct (split_at c w) as [[before after]|]; [|done].
    inversion H; subst. simpl. f_equal. by apply IH.
Qed.

Lemma inner_dot_intro d1 d2 :
  d1 ≠ [] → d2 ≠ [] → inner_dot (d1 ++ 46%N :: d2)%list = true.
Proof.
  intros H1 H2. destruct d1 as [|x a]; [done|]. simpl.
  rewrite removelast_app by done. rewrite existsb_app.
  destruct d2 as [|y d2]; [done|]. simpl. apply orb_true_r.
Qed.

Lemma inner_dot_elim d :
  inner_dot d = true →
  ∃ d1 d2, d = (d1 ++ 46%N :: d2)%list ∧ d1 ≠ [] ∧ d2 ≠ [].
Proof.
  destruct d as [|x rest]; [done|]. simpl. intros H.
  apply existsb_exists in H as (y & Hin & Hy).
  apply N.eqb_eq in Hy as ->.
  assert (rest ≠ []) as Hrest by (by intros ->).
  apply in_split in Hin as (a & b & Hsplit).
  exists (x :: a), (b ++ [List.last rest 0%N])%list. split; [|split].
  - rewrite (app_removelast_last 0%N Hrest) at 1. rewrite Hsplit.
    simpl. by rewrite <- app_assoc.
  - done.
  - by destruct b.
Qed.

(** X27. [validateEmail]: the regular expression [^[^\s@]+@[^\s@]+\.[^\s@]+$]
    accepts exactly the strings that have a non-empty part before their
    first at sign, no white space and no second at sign anywhere, and, after
    the at sign, a full stop that is neither the first nor the last code
    unit. *)
Theorem validateEmail_decides_regex (email : list N) :
  matches email_regex email ↔ validateEmail email = true.
Proof.
  rewrite email_regex_words. unfold validateEmail. split.
  - intros (l & d1 & d2 & -> & [Hl Hl'] & [H1 H1'] & [H2 H2']).
    rewrite split_at_first by by apply email_char_not_at.
    rewrite bool_decide_eq_false_2 by done.
    rewrite Hl', (inner_dot_intro d1 d2) by done.
    rewrite forallb_app. simpl. by rewrite H1', H2'.
  - destruct (split_at 64 email) as [[l d]|] eqn:Hsplit; [|done].
    apply split_at_Some in Hsplit as ->. intros H.
    apply andb_true_iff in H as [H Hdot].
    apply andb_true_iff in H as [H Hd].
    apply andb_true_iff in H as [Hne Hl].
    apply negb_true_iff, bool_decide_eq_false in Hne.
    apply inner_dot_elim in Hdot as (d1 & d2 & -> & H1 & H2).
    rewrite forallb_app in Hd. simpl in Hd.
    apply andb_true_iff in Hd as [Hd1 Hd2].
    exists l, d1, d2. done.
Qed.

(** X28. [validateEmail]: an accepted address contains exactly one at sign,
    no white space or line terminator, and at least three code units besides
    the at sign; so it cannot carry a display name, a second address or a
    line break. *)
Theorem accepted_email_shape (email : list N) :
  matches email_regex email →
  length (List.filter (λ c, (c =? 64)%N) email) = 1 ∧
  forallb (λ c, negb (js_whitespace c)) email = true ∧
  (3 ≤ length (List.filter (λ c, negb (c =? 64)%N) email))%nat.
Proof.
  intros H. apply email_regex_words in H
    as (l & d1 & d2 & -> & [Hl Hl'] & [H1 H1'] & [H2 H2']).
  assert (∀ w, forallb email_char w = true →
               List.filter (λ c, (c =? 64)%N) w = [] ∧
               List.filter (λ c, negb (c =? 64)%N) w = w ∧
               forallb (λ c, negb (js_whitespace c)) w = true) as Hpart.
  { induction w as [|c w IH]; [done|]. simpl. intros Hc.
    apply andb_true_iff in Hc as [Hc Hw]. unfold email_char in Hc.
    apply andb_true_iff in Hc as [Hws Hat].
    destruct (IH Hw) as (-> & -> & ->). rewrite Hws.
    apply negb_true_iff in Hat. by rewrite Hat. }
  destruct (Hpart l Hl') as (Al & Bl & Cl).
  destruct (Hpart d1 H1') as (A1 & B1 & C1).
  destruct (Hpart d2 H2') as (A2 & B2 & C2).
  repeat split.
  - rewrite List.filter_app. simpl. rewrite List.filter_app. simpl.
    by rewrite Al, A1, A2.
  - rewrite forallb_app. simpl. rewrite forallb_app. simpl.
    by rewrite Cl, C1, C2.
  - rewrite List.filter_app. simpl. rewrite List.filter_app. simpl.
    rewrite Bl, B1, B2. rewrite !length_app. simpl.
    destruct l; [done|]. destruct d1; [done|]. destruct d2; [done|].
    simpl. lia.
Qed.

Lemma accepted_email_shape_witness :
  length (List.filter (λ c, (c =? 64)%N) (code_units "a@b.c")) = 1.
Proof.
  apply (accepted_email_shape (code_units "a@b.c")).
  apply email_regex_words.
  exists [97%N], [98%N], [99%N]. by vm_compute.
Defined.
